(** * cluster-points: the result page of [static/script.js]

    A shallow embedding of the functions of [script.js] that rank, tier,
    filter and summarise the scored clusters:

    - [formatClusterPoints]  (lines 41-47),
    - [showClusterDetails]   (lines 49-88),
    - [displayResults]       (lines 90-206),
    - [sortClusters]         (lines 208-249).

    The document is modelled by a record of the elements these functions
    read and write; a function that mutates the document takes the page and
    returns the new one.

    Conventions of the model.
    - A JavaScript number is [NaN], an infinity or an exact rational.  The
      rounding of binary64 is not modelled: the model agrees with the
      engine on decimal texts of at most 15 significant digits whose value
      neither overflows nor underflows, which covers the three-decimal
      scores of the service.  [-0] and [+0] are both [Fin 0] (the script
      never tells them apart).
    - A string is a [string] of one-byte characters; white space is ASCII
      white space.
    - Markup built by template literals is kept as structure (a tagged
      record for each element written), not as text. *)

From Stdlib Require Import QArith Lqa Ascii String DecimalString.
From stdpp Require Import gmap strings list sorting.

Open Scope string_scope.
Open Scope list_scope.

(** ** Numbers *)

Inductive number : Type :=
| NaN
| PInf
| NInf
| Fin (q : Q).

(** Three-way comparison of two numbers; [None] as soon as one is [NaN],
    for which every relational operator answers [false]. *)
Definition num_compare (a b : number) : option comparison :=
  match a, b with
  | NaN, _ | _, NaN => None
  | PInf, PInf | NInf, NInf => Some Eq
  | PInf, _ | _, NInf => Some Gt
  | _, PInf | NInf, _ => Some Lt
  | Fin p, Fin q => Some (p ?= q)%Q
  end.

(** [a > b], [a >= b] and [a === b] on numbers. *)
Definition num_gt (a b : number) : bool :=
  match num_compare a b with Some Gt => true | _ => false end.

Definition num_ge (a b : number) : bool :=
  match num_compare a b with Some Gt | Some Eq => true | _ => false end.

Definition num_strict_eq (a b : number) : bool :=
  match num_compare a b with Some Eq => true | _ => false end.

Definition of_Z (z : Z) : number := Fin (inject_Z z).
Definition of_nat (n : nat) : number := of_Z (Z.of_nat n).

(** The order of the numbers that are not [NaN]. *)
Definition num_lt (a b : number) : Prop := num_compare a b = Some Lt.
Definition num_eq (a b : number) : Prop := num_compare a b = Some Eq.
Definition num_le (a b : number) : Prop := num_lt a b \/ num_eq a b.

(** [sort] moves [a] behind [b] exactly when the comparator is positive. *)
Definition behind (v : number) : bool := num_gt v (of_Z 0).

(** [a - b]. *)
Definition num_sub (a b : number) : number :=
  match a, b with
  | NaN, _ | _, NaN => NaN
  | PInf, PInf | NInf, NInf => NaN
  | PInf, _ | _, NInf => PInf
  | NInf, _ | _, PInf => NInf
  | Fin p, Fin q => Fin (p - q)
  end.

(** ToBoolean of a number: [NaN] and zero are falsy. *)
Definition num_truthy (a : number) : bool :=
  match a with
  | NaN => false
  | Fin q => negb (Qeq_bool q 0)
  | _ => true
  end.


(** ** Characters and scanning *)

Definition code (c : ascii) : nat := nat_of_ascii c.

Definition is_digit (c : ascii) : bool :=
  (48 <=? code c)%nat && (code c <=? 57)%nat.

Definition digit_val (c : ascii) : Z := Z.of_nat (code c) - 48.

(** The ASCII part of StrWhiteSpaceChar: TAB, LF, VT, FF, CR, SP. *)
Definition is_space (c : ascii) : bool :=
  ((9 <=? code c)%nat && (code c <=? 13)%nat) || (code c =? 32)%nat.

Fixpoint skip_space (s : string) : string :=
  match s with
  | String c r => if is_space c then skip_space r else s
  | EmptyString => s
  end.

(** Longest run of decimal digits at the head of [s]: the value read into
    the accumulator, the number of digits, and the rest. *)
Fixpoint read_digits (acc : Z) (n : nat) (s : string) : Z * nat * string :=
  match s with
  | String c r =>
      if is_digit c then read_digits (acc * 10 + digit_val c) (S n) r
      else (acc, n, s)
  | EmptyString => (acc, n, s)
  end.

Definition read_sign (s : string) : bool * string :=
  match s with
  | String "-" r => (true, r)
  | String "+" r => (false, r)
  | _ => (false, s)
  end.

(** ExponentPart, when a complete one heads [s]; otherwise exponent 0 (the
    longest prefix that is a literal then stops before the [e]). *)
Definition read_exponent (s : string) : Z :=
  match s with
  | String c r =>
      if (code c =? 101)%nat || (code c =? 69)%nat then
        let '(neg, r1) := read_sign r in
        let '(e, n, _) := read_digits 0 0 r1 in
        if (n =? 0)%nat then 0 else if neg then - e else e
      else 0
  | EmptyString => 0
  end.

(** [m * 10^k] as a rational. *)
Definition scale10 (m k : Z) : Q :=
  if (0 <=? k)%Z then inject_Z (m * 10 ^ k)
  else Qmake m (Z.to_pos (10 ^ (- k))).

(** ** parseFloat

    Leading white space is skipped, then the longest prefix that is a
    StrDecimalLiteral is read: an optional sign, then [Infinity], or digits
    with an optional fraction and an optional exponent, or a fraction that
    starts with the dot.  No such prefix: [NaN]. *)
Definition read_decimal (t : string) : number :=
  let '(ip, ni, t1) := read_digits 0 0 t in
  let '(m, nf, t2) :=
    match t1 with
    | String "." r => read_digits ip 0 r
    | _ => (ip, 0%nat, t1)
    end in
  if (ni =? 0)%nat && (nf =? 0)%nat then NaN
  else Fin (scale10 m (read_exponent t2 - Z.of_nat nf)).

Definition negate (neg : bool) (v : number) : number :=
  if neg then
    match v with
    | NaN => NaN
    | PInf => NInf
    | NInf => PInf
    | Fin q => Fin (- q)
    end
  else v.

Definition parseFloat (s : string) : number :=
  let '(neg, t) := read_sign (skip_space s) in
  negate neg (if String.prefix "Infinity" t then PInf else read_decimal t).

(** ** parseInt with no radix

    White space and a sign are skipped; a [0x] or [0X] prefix selects
    radix 16, otherwise radix 10; the longest run of digits of the radix is
    read.  No digit: [NaN]. *)
Definition hex_val (c : ascii) : option Z :=
  let n := code c in
  if is_digit c then Some (Z.of_nat n - 48)%Z
  else if (97 <=? n)%nat && (n <=? 102)%nat then Some (Z.of_nat n - 87)%Z
  else if (65 <=? n)%nat && (n <=? 70)%nat then Some (Z.of_nat n - 55)%Z
  else None.

Fixpoint read_hex (acc : Z) (n : nat) (s : string) : Z * nat :=
  match s with
  | String c r =>
      match hex_val c with
      | Some d => read_hex (acc * 16 + d)%Z (S n) r
      | None => (acc, n)
      end
  | EmptyString => (acc, n)
  end.

Definition parseInt (s : string) : number :=
  let '(neg, t) := read_sign (skip_space s) in
  let '(v, n) :=
    match t with
    | String "0" (String x r) =>
        if (code x =? 120)%nat || (code x =? 88)%nat then read_hex 0 0 r
        else let '(v, n, _) := read_digits 0 0 t in (v, n)
    | _ => let '(v, n, _) := read_digits 0 0 t in (v, n)
    end in
  if (n =? 0)%nat then NaN else of_Z (if neg then - v else v).

(** ToString of a non-negative integer (a loop counter, an index). *)
Definition show_nat (n : nat) : string :=
  NilEmpty.string_of_uint (Nat.to_uint n).

(** ** formatClusterPoints (lines 41-47) *)

(** What the function returns: the text wrapped in a [span] of a class, or
    the bare text. *)
Inductive markup : Type :=
| Span (class : string) (text : string)
| Text (text : string).

Definition formatClusterPoints (points : string) : markup :=
  let num := parseFloat points in
  if num_ge num (of_Z 30) then Span "points-high" points
  else if num_ge num (of_Z 15) then Span "points-medium" points
  else if num_gt num (of_Z 0) then Text points
  else Span "points-zero" "0.000".

(** The tier a rendering stands for: the three classes, and the unstyled
    text for the low band. *)
Inductive tier : Type := high | medium | low | zero.

Definition tier_of (m : markup) : option tier :=
  match m with
  | Span c _ =>
      if String.eqb c "points-high" then Some high
      else if String.eqb c "points-medium" then Some medium
      else if String.eqb c "points-zero" then Some zero
      else None
  | Text _ => Some low
  end.

(** [textContent] of the element that holds the markup (texts that carry
    no markup of their own). *)
Definition textContent (m : markup) : string :=
  match m with
  | Span _ t => t
  | Text t => t
  end.

(** ** Array.prototype.sort

    [sort comparefn l] is the array [l] after [l.sort(comparefn)].  The
    sort of ECMAScript is stable, and a comparator result that is [NaN]
    counts as [+0]: with a consistent comparator the outcome is the one
    stable sorted arrangement, which insertion from the right computes.
    ([comparefn a b > 0] moves [a] behind [b]; otherwise [a] stays in
    front.)  With an inconsistent comparator the engine may answer any
    arrangement; the model then gives one of them. *)
Section Sort.
Context {A : Type} (comparefn : A -> A -> number).

Fixpoint insert_sorted (x : A) (l : list A) : list A :=
  match l with
  | [] => [x]
  | y :: r =>
      if num_gt (comparefn x y) (of_Z 0) then y :: insert_sorted x r
      else x :: l
  end.

Definition sort (l : list A) : list A := fold_right insert_sorted [] l.
End Sort.

(** ** The response of the scoring service *)

Record subject : Type := {
  s_subject : string;
  s_grade : string;
  s_points : Z;
  s_requirement : option string
}.

Record detail : Type := {
  d_description : string;
  subjects_used : option (list subject)
}.

(** The fields of the response that the page reads.  [results] may be
    missing; [details] is read without a test and has to be an object. *)
Record response : Type := {
  aggregate_points : option number;
  top_7_subjects : list subject;
  results : option (gmap string string);
  details : gmap string detail
}.

(** ** The cluster records of [displayResults] (lines 113-126) *)

Record cluster : Type := {
  id : nat;
  name : string;
  points : number;
  pointsFormatted : string;
  description : string
}.

Definition clusterKey (i : nat) : string := "Cluster " +:+ show_nat i.

(** [data.results && data.results[clusterKey]]: the string, when the
    mapping exists, has the key, and the string is not empty. *)
Definition result_of (data : response) (key : string) : option string :=
  match results data with
  | Some r =>
      match r !! key with
      | Some s => if String.eqb s "" then None else Some s
      | None => None
      end
  | None => None
  end.

(** [data.details[clusterKey]?.description || ''] *)
Definition description_of (data : response) (key : string) : string :=
  match details data !! key with
  | Some d => d_description d
  | None => ""
  end.

(** One turn of the loop over [i]: what is pushed, if anything. *)
Definition cluster_at (data : response) (i : nat) : list cluster :=
  match result_of data (clusterKey i) with
  | Some s =>
      [ {| id := i;
           name := clusterKey i;
           points := parseFloat s;
           pointsFormatted := s;
           description := description_of data (clusterKey i) |} ]
  | None => []
  end.

(** The array [clusters] when the loop [for (i = 1; i <= 20; i++)] ends. *)
Definition collect_clusters (data : response) : list cluster :=
  flat_map (cluster_at data) (seq 1 20).

(** [(a, b) => b.points - a.points] *)
Definition by_points_desc (a b : cluster) : number :=
  num_sub (points b) (points a).

(** [clusters] after line 129. *)
Definition sorted_clusters (data : response) : list cluster :=
  sort by_points_desc (collect_clusters data).

(** [clusters.slice(0, 3)] *)
Definition top_of (clusters : list cluster) : list cluster := take 3 clusters.

(** [clusters.indexOf(cluster)]: the position of the record in the array,
    [-1] when it is not there.  The records of the array are distinct
    objects with distinct [id]s, one per turn of the loop, so the identity
    of a record is the equality of its [id]. *)
Fixpoint indexOf (clusters : list cluster) (c : cluster) : Z :=
  match clusters with
  | [] => -1
  | x :: r =>
      if (id x =? id c)%nat then 0
      else let k := indexOf r c in if (k <? 0)%Z then -1 else k + 1
  end.

(** ** The page *)

(** A card of the cluster grid: its class, the text of its number, the
    content of its points, its name and description, the record its click
    handler closes over, and [style.display]. *)
Record card : Type := {
  className : string;
  cluster_number : string;
  cluster_points : markup;
  cluster_name : string;
  cluster_description : string;
  onclick : cluster;
  display : string
}.

(** A card of the top grid; [top_badge] is the [k] of its [Top k] badge. *)
Record top_card : Type := {
  top_number : string;
  top_points : markup;
  top_name : string;
  top_description : string;
  top_onclick : cluster;
  top_badge : Z
}.

(** The aggregate line: the points, the denominator written after the
    slash, and the subjects listed. *)
Record aggregate_view : Type := {
  agg_points : number;
  agg_out_of : Z;
  agg_subjects : list (string * Z)
}.

Record page : Type := {
  resultsSection_display : string;
  aggregateDisplay : option aggregate_view;
  clusterGrid : list card;
  topClustersSection_display : string;
  topClustersGrid : list top_card
}.

(** [s.replace('_', ' ')]: the first underscore only. *)
Fixpoint replace_underscore (s : string) : string :=
  match s with
  | String c r =>
      if (code c =? 95)%nat then String " " r
      else String c (replace_underscore r)
  | EmptyString => EmptyString
  end.

(** [toUpperCase] on ASCII letters. *)
Definition upper (c : ascii) : ascii :=
  if (97 <=? code c)%nat && (code c <=? 122)%nat
  then ascii_of_nat (code c - 32) else c.

Fixpoint toUpperCase (s : string) : string :=
  match s with
  | String c r => String (upper c) (toUpperCase r)
  | EmptyString => EmptyString
  end.

(** ** displayResults (lines 90-206) *)

Definition cardClass (c : cluster) : string :=
  if num_strict_eq (points c) (of_Z 0) then "zero"
  else if num_ge (points c) (of_Z 30) then "highlight"
  else "".

Definition make_card (c : cluster) : card :=
  {| className := "cluster-card " +:+ cardClass c;
     cluster_number := show_nat (id c);
     cluster_points := formatClusterPoints (pointsFormatted c);
     cluster_name := name c;
     cluster_description := description c;
     onclick := c;
     display := "" |}.

Definition make_top_card (clusters : list cluster) (c : cluster) : top_card :=
  {| top_number := show_nat (id c);
     top_points := formatClusterPoints (pointsFormatted c);
     top_name := name c;
     top_description := description c;
     top_onclick := c;
     top_badge := indexOf clusters c + 1 |}.

Definition make_aggregate (data : response) (a : number) : aggregate_view :=
  {| agg_points := a;
     agg_out_of := 84;
     agg_subjects :=
       map (fun s => (replace_underscore (s_subject s), s_points s))
           (top_7_subjects data) |}.

Definition displayResults (data : response) (pg : page) : page :=
  let clusters := sorted_clusters data in
  let topClusters := top_of clusters in
  {| resultsSection_display := "block";
     aggregateDisplay :=
       match aggregate_points data with
       | Some a =>
           if num_truthy a then Some (make_aggregate data a)
           else aggregateDisplay pg
       | None => aggregateDisplay pg
       end;
     clusterGrid := map make_card clusters;
     topClustersSection_display :=
       match topClusters with [] => "none" | _ => "block" end;
     topClustersGrid := map (make_top_card clusters) topClusters |}.

(** ** sortClusters (lines 208-249)

    The function is run from the click of a sort button (it marks
    [event.target] active); the buttons are not part of the model. *)

Definition card_id (c : card) : number := parseInt (cluster_number c).

(** [text.replace(/[^\d.]/g, '')] *)
Fixpoint digits_and_dots (s : string) : string :=
  match s with
  | String c r =>
      if is_digit c || (code c =? 46)%nat then String c (digits_and_dots r)
      else digits_and_dots r
  | EmptyString => EmptyString
  end.

(** [parseFloat(text.replace(/[^\d.]/g, '') || 0)]; [parseFloat(0)] reads
    the string ["0"]. *)
Definition read_points (text : string) : number :=
  let t := digits_and_dots text in
  parseFloat (if String.eqb t "" then "0" else t).

Definition card_points (c : card) : number :=
  read_points (textContent (cluster_points c)).

Definition compare_cards (sortType : string) (a b : card) : number :=
  let aId := card_id a in
  let bId := card_id b in
  let aPoints := card_points a in
  let bPoints := card_points b in
  if String.eqb sortType "number" then num_sub aId bId
  else if String.eqb sortType "points" then num_sub bPoints aPoints
  else if String.eqb sortType "non-zero" then
    if num_strict_eq aPoints (of_Z 0) && num_gt bPoints (of_Z 0) then of_Z 1
    else if num_gt aPoints (of_Z 0) && num_strict_eq bPoints (of_Z 0)
         then of_Z (-1)
    else num_sub bPoints aPoints
  else num_sub aId bId.

Definition set_display (d : string) (c : card) : card :=
  {| className := className c;
     cluster_number := cluster_number c;
     cluster_points := cluster_points c;
     cluster_name := cluster_name c;
     cluster_description := cluster_description c;
     onclick := onclick c;
     display := d |}.

Definition show_or_hide (sortType : string) (c : card) : card :=
  if String.eqb sortType "non-zero" then
    set_display
      (if num_strict_eq (card_points c) (of_Z 0) then "none" else "block") c
  else set_display "block" c.

Definition sortClusters (sortType : string) (pg : page) : page :=
  let clusters := sort (compare_cards sortType) (clusterGrid pg) in
  {| resultsSection_display := resultsSection_display pg;
     aggregateDisplay := aggregateDisplay pg;
     clusterGrid := map (show_or_hide sortType) clusters;
     topClustersSection_display := topClustersSection_display pg;
     topClustersGrid := topClustersGrid pg |}.

(** ** showClusterDetails (lines 49-88) *)

(** What the function appends to [html], piece by piece. *)
Inductive block : Type :=
| SubjectsHeading
| SubjectItem (label gradeClass grade : string)
              (requirement : option string) (item_points : Z)
| TotalLine (totalPoints out_of : Z).

Record modal : Type := {
  modalTitle : string;
  modalContent : list block;
  shown : bool
}.

(** [subject.grade.charAt(0)] *)
Definition charAt0 (s : string) : string :=
  match s with
  | String c _ => String c EmptyString
  | EmptyString => EmptyString
  end.

Definition gradeClass_of (s : subject) : string := "grade-" +:+ charAt0 (s_grade s).

(** [subject.requirement ? ... : ''] *)
Definition requirement_badge (s : subject) : option string :=
  match s_requirement s with
  | Some r => if String.eqb r "" then None else Some r
  | None => None
  end.

Definition subject_item (s : subject) : block :=
  SubjectItem (toUpperCase (replace_underscore (s_subject s)))
              (gradeClass_of s) (s_grade s) (requirement_badge s) (s_points s).

(** The body of the [forEach]: one item appended, the points added. *)
Definition add_subject (st : list block * Z) (s : subject) : list block * Z :=
  (fst st ++ [subject_item s], (snd st + s_points s)%Z).

(** How a call ends: normally, or by raising. *)
Inductive exception : Type :=
| ReferenceError (identifier : string).

Inductive completion : Type :=
| Normal
| Throw (e : exception).

(** The identifier [html] is read at line 58 ([html +=]) and at line 83
    ([innerHTML = html]), and script.js declares it nowhere: neither in
    the function nor at top level.  [html] is the binding the identifier
    resolves to when the function is entered: [None] with script.js as it
    is, [Some h] if some other script had declared it with content [h].
    [m] is the modal before the call.  Line 53 sets the title first; with
    no binding both paths then read [html] and raise [ReferenceError]
    before the content is written or the modal shown. *)
Definition showClusterDetails (html : option (list block)) (m : modal)
    (clusterId : nat) (clusterName points_text : string)
    (subjectsUsed : option (list subject))
  : modal * completion :=
  let titled :=
    {| modalTitle := clusterName +:+ " Details";
       modalContent := modalContent m;
       shown := shown m |} in
  match html with
  | None => (titled, Throw (ReferenceError "html"))
  | Some html0 =>
      let html1 :=
        match subjectsUsed with
        | Some (s :: r) =>
            let '(h, totalPoints) :=
              fold_left add_subject (s :: r) (html0 ++ [SubjectsHeading], 0%Z) in
            h ++ [TotalLine totalPoints 48]
        | _ => html0
        end in
      ({| modalTitle := clusterName +:+ " Details";
          modalContent := html1;
          shown := true |}, Normal)
  end.

(** The click handler of a card (lines 141-151): the detail record of the
    cluster is looked up and, when there is one, [showClusterDetails] is
    called; what it raises leaves the handler. *)
Definition click (html : option (list block)) (m : modal) (data : response)
    (c : cluster) : modal * completion :=
  match details data !! clusterKey (id c) with
  | Some d =>
      showClusterDetails html m (id c) (name c) (pointsFormatted c)
        (subjects_used d)
  | None => (m, Normal)
  end.

(** The modal of the page as it is loaded, and the subjects of a detail
    record. *)
Definition closed_modal : modal :=
  {| modalTitle := ""; modalContent := []; shown := false |}.

Definition example_subjects : list subject :=
  [ {| s_subject := "mathematics"; s_grade := "A"; s_points := 12;
       s_requirement := Some "compulsory" |};
    {| s_subject := "computer_studies"; s_grade := "B+"; s_points := 10;
       s_requirement := None |} ].

(** An empty page, before any result is shown. *)
Definition blank_page : page :=
  {| resultsSection_display := "none";
     aggregateDisplay := None;
     clusterGrid := [];
     topClustersSection_display := "";
     topClustersGrid := [] |}.

Definition example_data : response :=
  {| aggregate_points := None;
     top_7_subjects := [];
     results := Some {[ "Cluster 1" := "32.500"; "Cluster 2" := "32.500";
                        "Cluster 3" := "0.000" ]};
     details := ∅ |}.

(** A response with a score that does not parse. *)
Definition unparsed_data : response :=
  {| aggregate_points := None;
     top_7_subjects := [];
     results := Some {[ "Cluster 1" := "abc"; "Cluster 2" := "12.000" ]};
     details := ∅ |}.

(** A response whose order by points is not its order by id. *)
Definition rising_data : response :=
  {| aggregate_points := None;
     top_7_subjects := [];
     results := Some {[ "Cluster 1" := "10.000"; "Cluster 2" := "20.000" ]};
     details := ∅ |}.

(** A response with an aggregate and its subjects. *)
Definition aggregate_data : response :=
  {| aggregate_points := Some (of_Z 60);
     top_7_subjects :=
       [ {| s_subject := "home_science_paper"; s_grade := "A"; s_points := 12;
            s_requirement := None |};
         {| s_subject := "mathematics"; s_grade := "A-"; s_points := 11;
            s_requirement := None |} ];
     results := Some {[ "Cluster 1" := "32.500" ]};
     details := ∅ |}.

(** The ids and badges of the top grid, in order. *)
Definition highlights (pg : page) : list (nat * Z) :=
  map (fun t => (id (top_onclick t), top_badge t)) (topClustersGrid pg).

(** The cluster that [displayResults] builds for [Cluster i] with the
    score [s] and no detail record. *)
Definition cluster_of (i : nat) (s : string) : cluster :=
  {| id := i; name := clusterKey i; points := parseFloat s;
     pointsFormatted := s; description := "" |}.

(** The arithmetic sum of a sequence of integers. *)
Fixpoint arithmetic_sum (l : list Z) : Z :=
  match l with
  | [] => 0
  | x :: r => x + arithmetic_sum r
  end.

(** ** Well-formed responses *)

Definition is_nan (v : number) : bool :=
  match v with NaN => true | _ => false end.

(** A formatted score as the service writes it: digits and dots only, and
    read by [parseFloat] as a number ("32.500", "0.000", "7"). *)
Definition canonical (s : string) : bool :=
  String.eqb (digits_and_dots s) s && negb (is_nan (parseFloat s)).

Definition each_result (ok : string -> bool) (data : response) : bool :=
  forallb (fun i => match result_of data (clusterKey i) with
                    | Some s => ok s
                    | None => true
                    end) (seq 1 20).

(** Every score of the response parses. *)
Definition parsed (data : response) : bool :=
  each_result (fun s => negb (is_nan (parseFloat s))) data.

(** Every score of the response is canonical: the list built from the
    response is the normalized list of the specification. *)
Definition normalized (data : response) : bool := each_result canonical data.

(** The page after [displayResults data] and then one [sortClusters] for
    each mode of [modes], in order. *)
Definition page_after (data : response) (modes : list string) (pg : page)
  : page :=
  fold_left (fun p m => sortClusters m p) modes (displayResults data pg).

(** Points decreasing; with equal points, id increasing. *)
Definition cluster_order (a b : cluster) : Prop :=
  num_lt (points b) (points a)
  \/ (num_eq (points a) (points b) /\ (id a < id b)%nat).

(** ** Orders and invariants of the grid *)

(** The texts [parseFloat] reads as a bare decimal literal. *)
Definition plain (s : string) : Prop :=
  match s with
  | String c _ => is_digit c || (code c =? 46)%nat = true
  | EmptyString => False
  end.

Definition number_order (a b : card) : Prop :=
  num_lt (card_id a) (card_id b).

Definition number_le (a b : card) : Prop :=
  num_le (card_id a) (card_id b).

(** Points decreasing; with equal points, number increasing. *)
Definition points_order (a b : card) : Prop :=
  num_lt (card_points b) (card_points a)
  \/ (num_eq (card_points a) (card_points b)
      /\ num_lt (card_id a) (card_id b)).

Definition order_of (sortType : string) : relation card :=
  if String.eqb sortType "points" || String.eqb sortType "non-zero"
  then points_order else number_order.

(** Cards whose number and points read as numbers. *)
Definition readable (c : card) : Prop :=
  card_id c <> NaN /\ card_points c <> NaN.

(** Of two cards with equal points, the first has the smaller number. *)
Definition ties_ascending (a b : card) : Prop :=
  num_eq (card_points a) (card_points b) -> num_lt (card_id a) (card_id b).

(** The grids the page shows: readable cards, no number twice, and cards
    of equal points in the order of their numbers. *)
Record grid_ok (l : list card) : Prop := {
  ok_readable : Forall readable l;
  ok_distinct : NoDup (map card_id l);
  ok_ties : StronglySorted ties_ascending l
}.

Definition decided (a b : card) : Prop :=
  readable a /\ readable b /\ card_id a <> card_id b /\ ties_ascending a b.

(** The string is one of the three modes, or any other string. *)
Inductive mode_view (m : string) : Prop :=
| is_number : m = "number" -> mode_view m
| is_points : m = "points" -> mode_view m
| is_non_zero : m = "non-zero" -> mode_view m
| is_other :
    String.eqb m "number" = false -> String.eqb m "points" = false ->
    String.eqb m "non-zero" = false -> mode_view m.

(** A card shows its record: the number read from it is the id, the points
    read from it are the points. *)
Definition faithful (c : card) : Prop :=
  card_id c = of_nat (id (onclick c))
  /\ num_eq (card_points c) (points (onclick c)).

(** The grid holds one faithful card for each cluster of the response, in
    an order [sortClusters] can work from. *)
Record shows (data : response) (l : list card) : Prop := {
  shows_ok : grid_ok l;
  shows_faithful : Forall faithful l;
  shows_records : map onclick l ≡ₚ collect_clusters data
}.

(** ** The form, the spinner and the submission (lines 2-39, 252-309)

    The document around the page: the controls of [gradesForm] in document
    order, the display of the loading spinner, and the warning boxes that
    submissions put at the head of the results section (newest first).  A
    control is an element that carries a value; assigning its [value]
    stores the string (a text field, or a select that has the option). *)

Record control : Type := {
  ctl_id : string;
  ctl_name : string;
  ctl_value : string;
  ctl_default : string
}.

Record document : Type := {
  doc_page : page;
  controls : list control;
  loadingSpinner_display : string;
  warnings : list string
}.

Definition with_value (v : string) (c : control) : control :=
  {| ctl_id := ctl_id c; ctl_name := ctl_name c; ctl_value := v;
     ctl_default := ctl_default c |}.

(** [showLoading(show)] (lines 2-5) *)
Definition showLoading (show : bool) (doc : document) : document :=
  {| doc_page := doc_page doc;
     controls := controls doc;
     loadingSpinner_display := if show then "flex" else "none";
     warnings := warnings doc |}.

(** [resetForm()] (lines 7-10): every control back to its default value,
    the results section hidden. *)
Definition resetForm (doc : document) : document :=
  {| doc_page :=
       {| resultsSection_display := "none";
          aggregateDisplay := aggregateDisplay (doc_page doc);
          clusterGrid := clusterGrid (doc_page doc);
          topClustersSection_display :=
            topClustersSection_display (doc_page doc);
          topClustersGrid := topClustersGrid (doc_page doc) |};
     controls := map (fun c => with_value (ctl_default c) c) (controls doc);
     loadingSpinner_display := loadingSpinner_display doc;
     warnings := warnings doc |}.

(** [sampleData] (lines 14-27), in the order of its keys. *)
Definition sampleData : list (string * string) :=
  [ ("mathematics", "A"); ("english", "B+"); ("kiswahili", "B");
    ("physics", "A-"); ("chemistry", "B+"); ("biology", "B");
    ("history", "C+"); ("geography", "B-"); ("cre", "B");
    ("computer", "A"); ("business", "A-"); ("agriculture", "B+") ].

(** [const element = document.getElementById(field);
     if (element) element.value = ...]: the first element with the id, if
    there is one. *)
Fixpoint set_field (field value : string) (cs : list control) : list control :=
  match cs with
  | [] => []
  | c :: r =>
      if String.eqb (ctl_id c) field then with_value value c :: r
      else c :: set_field field value r
  end.

(** [loadSampleData()] (lines 12-39); the alert that ends it is not part of
    the document. *)
Definition loadSampleData (doc : document) : document :=
  {| doc_page := doc_page doc;
     controls :=
       fold_left (fun cs kv => set_field (fst kv) (snd kv) cs)
                 sampleData (controls doc);
     loadingSpinner_display := loadingSpinner_display doc;
     warnings := warnings doc |}.

(** [new FormData(this)]: name and value of each control that has a name,
    in document order (the controls of the model are those a form sends:
    enabled fields and selects). *)
Definition formData (cs : list control) : list (string * string) :=
  map (fun c => (ctl_name c, ctl_value c))
      (filter (fun c => negb (String.eqb (ctl_name c) "")) cs).

(** [if (value && value !== 'Select Grade')] *)
Definition entered (value : string) : bool :=
  negb (String.eqb value "") && negb (String.eqb value "Select Grade").

(** The body of [formData.forEach((value, key) => ...)]. *)
Definition add_grade (grades : gmap string string) (kv : string * string)
  : gmap string string :=
  if entered (snd kv) then <[fst kv := toUpperCase (snd kv)]> grades
  else grades.

(** The object [grades] when the [forEach] ends (no control is named as a
    property of [Object.prototype]). *)
Definition collect_grades (entries : list (string * string))
  : gmap string string :=
  fold_left add_grade entries ∅.

(** [!grades.key]: the key is missing, or its string is empty. *)
Definition no_grade (grades : gmap string string) (key : string) : bool :=
  match grades !! key with
  | Some v => String.eqb v ""
  | None => true
  end.

(** What the server sent back, as far as the handler reads it. *)
Record reply : Type := {
  success : bool;
  reply_data : response;
  warning : option string;
  error : option string
}.

(** How the request ended: [fetch] or [response.json()] threw an error
    with a message, or a reply was parsed. *)
Inductive outcome : Type :=
| Failed (message : string)
| Replied (r : reply).

(** What a submission leaves: the document, the message of the alert it
    raised if any, and the grades it posted if any. *)
Record submission : Type := {
  sub_document : document;
  sub_alert : option string;
  sub_posted : option (gmap string string)
}.

(** [s || fallback] on an optional string. *)
Definition or_else (s : option string) (fallback : string) : string :=
  match s with
  | Some t => if String.eqb t "" then fallback else t
  | None => fallback
  end.

Definition with_page (pg : page) (doc : document) : document :=
  {| doc_page := pg;
     controls := controls doc;
     loadingSpinner_display := loadingSpinner_display doc;
     warnings := warnings doc |}.

(** [resultsSection.prepend(warningAlert)] when [data.warning] is truthy. *)
Definition add_warning (w : option string) (doc : document) : document :=
  match w with
  | Some t =>
      if String.eqb t "" then doc
      else {| doc_page := doc_page doc;
              controls := controls doc;
              loadingSpinner_display := loadingSpinner_display doc;
              warnings := t :: warnings doc |}
  | None => doc
  end.

(** The [try] block once the request has ended with [o] (lines 285-305):
    the document and the alert. *)
Definition handle_outcome (o : outcome) (doc : document)
  : document * option string :=
  match o with
  | Replied r =>
      if success r then
        (add_warning (warning r)
           (with_page (displayResults (reply_data r) (doc_page doc)) doc),
         None)
      else
        (doc,
         Some ("Error calculating points: "
               +:+ or_else (error r) "Unknown error"))
  | Failed message => (doc, Some ("Network error: " +:+ message))
  end.

(** The submit handler of [gradesForm] (lines 252-309), with the way the
    request ends as a parameter.  (A reply is of the type the page can
    display: [displayResults] does not throw on it.) *)
Definition onSubmit (o : outcome) (doc : document) : submission :=
  let grades := collect_grades (formData (controls doc)) in
  if no_grade grades "mathematics" || no_grade grades "english" then
    {| sub_document := doc;
       sub_alert :=
         Some "Please enter grades for at least Mathematics and English.";
       sub_posted := None |}
  else
    let '(doc1, a) := handle_outcome o (showLoading true doc) in
    {| sub_document := showLoading false doc1;
       sub_alert := a;
       sub_posted := Some grades |}.

(** What can happen on the page: a submission that ends with an outcome,
    the reset button, the sample button, a sort button. *)
Inductive action : Type :=
| Submit (o : outcome)
| Reset
| LoadSample
| Sort (sortType : string).

Definition step (a : action) (doc : document) : document :=
  match a with
  | Submit o => sub_document (onSubmit o doc)
  | Reset => resetForm doc
  | LoadSample => loadSampleData doc
  | Sort m => with_page (sortClusters m (doc_page doc)) doc
  end.

Definition run (actions : list action) (doc : document) : document :=
  fold_left (fun d a => step a d) actions doc.

(** ** Orders used by the further properties *)

(** The tiers from the lowest to the highest. *)
Definition tier_rank (t : option tier) : nat :=
  match t with
  | Some zero => 0
  | Some low => 1
  | Some medium => 2
  | Some high => 3
  | None => 0
  end.

(** No underscore in the string. *)
Fixpoint no_underscore (s : string) : bool :=
  match s with
  | String c r => negb (code c =? 95)%nat && no_underscore r
  | EmptyString => true
  end.

(** No ASCII lower-case letter in the string. *)
Fixpoint no_lower (s : string) : bool :=
  match s with
  | String c r =>
      negb ((97 <=? code c)%nat && (code c <=? 122)%nat) && no_lower r
  | EmptyString => true
  end.

(** The points read from the cards do not increase along the grid. *)
Definition points_le_desc (a b : card) : Prop :=
  num_le (card_points b) (card_points a).

(** The grade that [sampleData] has for a field. *)
Fixpoint sample_grade_in (l : list (string * string)) (field : string)
  : option string :=
  match l with
  | [] => None
  | (k, v) :: r => if String.eqb k field then Some v else sample_grade_in r field
  end.

Definition sample_grade (field : string) : option string :=
  sample_grade_in sampleData field.

Definition blank_document (cs : list control) : document :=
  {| doc_page := blank_page; controls := cs;
     loadingSpinner_display := "none"; warnings := [] |}.

(** A form with a select for each of three subjects, nothing chosen. *)
Definition example_controls : list control :=
  [ {| ctl_id := "mathematics"; ctl_name := "mathematics";
       ctl_value := "Select Grade"; ctl_default := "Select Grade" |};
    {| ctl_id := "english"; ctl_name := "english";
       ctl_value := "Select Grade"; ctl_default := "Select Grade" |};
    {| ctl_id := "physics"; ctl_name := "physics";
       ctl_value := "Select Grade"; ctl_default := "Select Grade" |} ].

Definition example_reply : reply :=
  {| success := true; reply_data := example_data;
     warning := Some "Fewer than 7 subjects"; error := None |}.

(** Each card carries the id of its record as its number. *)
Definition numbered (c : card) : Prop :=
  card_id c = of_nat (id (onclick c)) /\ (1 <= id (onclick c) <= 20)%nat.

(** A form in which grades have been typed, in lower case. *)
Definition typed_controls : list control :=
  [ {| ctl_id := "mathematics"; ctl_name := "mathematics";
       ctl_value := "a-"; ctl_default := "Select Grade" |};
    {| ctl_id := "english"; ctl_name := "english";
       ctl_value := "b+"; ctl_default := "Select Grade" |};
    {| ctl_id := "physics"; ctl_name := "physics";
       ctl_value := "Select Grade"; ctl_default := "Select Grade" |};
    {| ctl_id := "english2"; ctl_name := "english";
       ctl_value := "c"; ctl_default := "" |} ].

(** What a control is, apart from its value. *)
Definition ctl_frame (c : control) : string * string * string :=
  (ctl_id c, ctl_name c, ctl_default c).

(** One control under the assignments of a list of fields, in order. *)
Definition assign (l : list (string * string)) (c : control) : control :=
  fold_left (fun c kv => if String.eqb (ctl_id c) (fst kv)
                         then with_value (snd kv) c else c) l c.

(** * Facts *)

(** ** Order on numbers *)

Ltac qcmp :=
  repeat match goal with
  | H : Some _ = Some _ |- _ => injection H as H
  | H : (_ ?= _)%Q = Lt |- _ => apply (proj2 (Qlt_alt _ _)) in H
  | H : (_ ?= _)%Q = Eq |- _ => apply (proj2 (Qeq_alt _ _)) in H
  | H : (_ ?= _)%Q = Gt |- _ => apply (proj2 (Qgt_alt _ _)) in H
  | |- Some _ = Some _ => f_equal
  | |- (_ ?= _)%Q = Lt => apply (proj1 (Qlt_alt _ _))
  | |- (_ ?= _)%Q = Eq => apply (proj1 (Qeq_alt _ _))
  | |- (_ ?= _)%Q = Gt => apply (proj1 (Qgt_alt _ _))
  end.

Ltac num_solve :=
  unfold num_le, num_lt, num_eq, behind, num_gt, num_ge, num_strict_eq,
    of_nat, of_Z in *;
  repeat match goal with
  | a : number |- _ => destruct a
  end;
  simpl in *; try discriminate; try congruence; try tauto;
  qcmp; try lra.

Lemma Qcompare_cases (p q : Q) :
  ((p ?= q)%Q = Lt /\ (p < q)%Q) \/ ((p ?= q)%Q = Eq /\ (p == q)%Q)
  \/ ((p ?= q)%Q = Gt /\ (q < p)%Q).
Proof.
  destruct (p ?= q)%Q eqn:E; [right; left | left | right; right];
    split; trivial; qcmp; trivial.
Qed.

Lemma num_lt_trans a b c : num_lt a b -> num_lt b c -> num_lt a c.
Proof. intros; num_solve. Qed.

Lemma num_eq_trans a b c : num_eq a b -> num_eq b c -> num_eq a c.
Proof. intros; num_solve. Qed.

Lemma num_eq_sym a b : num_eq a b -> num_eq b a.
Proof. intros; num_solve. Qed.

Lemma num_lt_eq a b c : num_lt a b -> num_eq b c -> num_lt a c.
Proof. intros; num_solve. Qed.

Lemma num_eq_lt a b c : num_eq a b -> num_lt b c -> num_lt a c.
Proof. intros; num_solve. Qed.

Lemma num_lt_irrefl a : ~ num_lt a a.
Proof. intros H; num_solve. Qed.

Lemma num_lt_not_eq a b : num_lt a b -> ~ num_eq a b.
Proof. unfold num_lt, num_eq. congruence. Qed.

Lemma num_lt_asym a b : num_lt a b -> ~ num_lt b a.
Proof. intros H1 H2. exact (num_lt_irrefl a (num_lt_trans _ _ _ H1 H2)). Qed.

(** Without a [NaN], two numbers are ordered one way or the other. *)
Lemma num_total a b :
  a <> NaN -> b <> NaN -> num_lt a b \/ num_eq a b \/ num_lt b a.
Proof.
  intros Ha Hb. unfold num_lt, num_eq.
  destruct a, b; simpl; try congruence; auto.
  destruct (Qcompare_cases q q0) as [[E H]|[[E H]|[E H]]]; rewrite E; auto.
  right; right. qcmp; trivial.
Qed.

(** The sign of a difference: [a - b > 0] exactly when [a > b]; this is
    also true when the difference is [NaN]. *)
Lemma behind_sub a b :
  behind (num_sub a b) = true <-> num_lt b a.
Proof.
  unfold behind, num_gt, num_lt.
  destruct a, b; simpl; try (split; congruence).
  destruct (Qcompare_cases (q - q0) (inject_Z 0)) as [[E H]|[[E H]|[E H]]];
    rewrite E; (split; [try discriminate | ]); intros; qcmp;
    unfold inject_Z in *; try lra.
Qed.

Lemma behind_sub_false a b :
  a <> NaN -> b <> NaN ->
  behind (num_sub a b) = false <-> num_le a b.
Proof.
  intros Ha Hb. split.
  - intros H. destruct (num_total a b Ha Hb) as [?|[?|L]];
      [left; trivial | right; trivial |].
    apply behind_sub in L. congruence.
  - intros H. destruct (behind (num_sub a b)) eqn:E; trivial.
    apply behind_sub in E. destruct H as [H|H].
    + destruct (num_lt_asym _ _ H E).
    + apply num_eq_sym in H. destruct (num_lt_not_eq _ _ E H).
Qed.

Lemma of_Z_compare (x y : Z) :
  num_compare (of_Z x) (of_Z y) = Some (x ?= y)%Z.
Proof.
  unfold of_Z; simpl. f_equal. unfold Qcompare; simpl.
  now rewrite !Z.mul_1_r.
Qed.

Lemma of_nat_lt (x y : nat) : num_lt (of_nat x) (of_nat y) <-> (x < y)%nat.
Proof.
  unfold num_lt, of_nat. rewrite of_Z_compare. split.
  - intros H. injection H as H.
    apply (proj1 (Z.compare_lt_iff _ _)) in H. lia.
  - intros H. f_equal. apply (proj2 (Z.compare_lt_iff _ _)). lia.
Qed.

#[local] Instance of_nat_inj : Inj eq eq of_nat.
Proof. intros x y. unfold of_nat, of_Z, inject_Z. intros H. injection H. lia. Qed.

(** ** The sort *)

Section SortFacts.
Context {A : Type} (cmp : A -> A -> number).

Lemma insert_sorted_perm x l : insert_sorted cmp x l ≡ₚ x :: l.
Proof.
  induction l as [|y r IH]; simpl; [reflexivity|].
  destruct (num_gt _ _); [|reflexivity].
  rewrite IH. apply Permutation_swap.
Qed.

Lemma sort_perm l : sort cmp l ≡ₚ l.
Proof.
  induction l as [|x l IH]; simpl; [reflexivity|].
  now rewrite insert_sorted_perm, IH.
Qed.

(** Only the sign test of the comparator matters, and only on pairs taken
    in the order of the array. *)
Lemma insert_sorted_ext (cmp' : A -> A -> number) x l :
  Forall (fun y => behind (cmp x y) = behind (cmp' x y)) l ->
  insert_sorted cmp x l = insert_sorted cmp' x l.
Proof.
  induction 1 as [|y r Hy _ IH]; simpl; [reflexivity|].
  fold (behind (cmp x y)). fold (behind (cmp' x y)). rewrite Hy, IH.
  reflexivity.
Qed.

Lemma sort_ext (cmp' : A -> A -> number) l :
  (forall x y, behind (cmp x y) = behind (cmp' x y)) ->
  sort cmp l = sort cmp' l.
Proof.
  intros H. induction l as [|x l IH]; simpl; [reflexivity|].
  rewrite IH. apply insert_sorted_ext, Forall_forall. intros; apply H.
Qed.

Section Sorted.
Context (R P : relation A) `{!Transitive R}.
Hypothesis decides :
  forall x y, P x y -> if behind (cmp x y) then R y x else R x y.

Lemma insert_sorted_sorted x l :
  Forall (P x) l -> StronglySorted R l ->
  StronglySorted R (insert_sorted cmp x l).
Proof.
  induction l as [|y r IH]; simpl; intros HP HS.
  - repeat constructor.
  - apply Forall_cons in HP as [Hxy HP].
    apply StronglySorted_cons in HS as [Hy HS].
    apply decides in Hxy. unfold behind in Hxy.
    destruct (num_gt _ _).
    + apply StronglySorted_cons. split; [|auto].
      rewrite insert_sorted_perm. auto.
    + apply StronglySorted_cons. split.
      * constructor; [trivial|].
        eapply Forall_impl; [exact Hy|]. intros z Hz; simpl in *.
        now transitivity y.
      * apply StronglySorted_cons; auto.
Qed.

(** An array whose pairs, taken in order, are pairs the comparator
    decides the way of [R], is sorted along [R] by the sort. *)
Lemma sort_sorted l :
  StronglySorted P l -> StronglySorted R (sort cmp l).
Proof.
  induction 1 as [|x l _ IH Hx]; simpl; [constructor|].
  apply insert_sorted_sorted; [|exact IH].
  now rewrite sort_perm.
Qed.
End Sorted.
End SortFacts.

Lemma sort_map {A B : Type} (f : A -> B) (cmpA : A -> A -> number)
    (cmpB : B -> B -> number) (l : list A) :
  (forall x y, cmpB (f x) (f y) = cmpA x y) ->
  sort cmpB (map f l) = map f (sort cmpA l).
Proof.
  intros H. induction l as [|x l IH]; simpl; [reflexivity|].
  rewrite IH. generalize (sort cmpA l) as s.
  induction s as [|y s IHs]; simpl; [reflexivity|].
  rewrite H. destruct (num_gt _ _); simpl; [now rewrite IHs|reflexivity].
Qed.

(** A relation that holds between the members of a list can be carried
    along a map. *)
Lemma StronglySorted_map_in {A B : Type} (f : A -> B) (R : relation A)
    (S : relation B) (l : list A) :
  (forall x y, x ∈ l -> y ∈ l -> R x y -> S (f x) (f y)) ->
  StronglySorted R l -> StronglySorted S (map f l).
Proof.
  intros H HS. induction HS as [|x l HS IH Hx]; simpl; [constructor|].
  constructor.
  - apply IH. intros a b Ha Hb. apply H; now right.
  - apply Forall_forall. intros b Hb.
    apply list_elem_of_fmap in Hb as [a [-> Ha]].
    apply H; [now left | now right |].
    rewrite Forall_forall in Hx. auto.
Qed.

(** ** Parsing *)

Lemma read_digits_nonneg s : forall acc n m n' r,
  read_digits acc n s = (m, n', r) -> (0 <= acc)%Z -> (0 <= m)%Z.
Proof.
  induction s as [|c s IH]; simpl; intros acc n m n' r H Hacc.
  - congruence.
  - destruct (is_digit c) eqn:D.
    + eapply IH; [exact H|]. unfold is_digit, digit_val in *.
      apply andb_true_iff in D as [D _]. apply Nat.leb_le in D. lia.
    + congruence.
Qed.

Lemma scale10_nonneg m k : (0 <= m)%Z -> (0 <= scale10 m k)%Q.
Proof.
  intros H. unfold scale10. destruct (0 <=? k)%Z eqn:E.
  - apply Z.leb_le in E. unfold Qle, inject_Z; simpl.
    assert (0 <= 10 ^ k)%Z by (apply Z.pow_nonneg; lia). nia.
  - unfold Qle; simpl. lia.
Qed.

(** An unsigned decimal literal is never negative. *)
Lemma read_decimal_nonneg t :
  read_decimal t = NaN \/ exists q, read_decimal t = Fin q /\ (0 <= q)%Q.
Proof.
  unfold read_decimal.
  destruct (read_digits 0 0 t) as [[ip ni] t1] eqn:E1.
  assert (0 <= ip)%Z as Hip by (eapply read_digits_nonneg; [exact E1|lia]).
  set (second := match t1 with
                 | String "." r => read_digits ip 0 r
                 | _ => (ip, 0%nat, t1)
                 end).
  destruct second as [[m nf] t2] eqn:E2.
  assert (0 <= m)%Z as Hm.
  { subst second. destruct t1 as [|c r]; [congruence|].
    destruct c as [[] [] [] [] [] [] [] []]; try congruence.
    eapply read_digits_nonneg; [exact E2|trivial]. }
  destruct ((ni =? 0)%nat && (nf =? 0)%nat); [now left|right].
  eexists; split; [reflexivity|]. now apply scale10_nonneg.
Qed.

(** A text that starts with a digit or a dot has no white space to skip,
    no sign, and is not [Infinity]. *)
Lemma plain_head c r :
  is_digit c || (code c =? 46)%nat = true ->
  read_sign (skip_space (String c r)) = (false, String c r)
  /\ String.prefix "Infinity" (String c r) = false.
Proof.
  intros H.
  destruct c as [[] [] [] [] [] [] [] []];
    try (exfalso; vm_compute in H; congruence); split; reflexivity.
Qed.

Lemma parseFloat_plain s : plain s -> parseFloat s = read_decimal s.
Proof.
  destruct s as [|c r]; simpl; [tauto|]. intros H.
  destruct (plain_head c r H) as [E1 E2].
  unfold parseFloat. rewrite E1, E2. reflexivity.
Qed.

Lemma digits_and_dots_plain s :
  digits_and_dots s <> "" -> plain (digits_and_dots s).
Proof.
  induction s as [|c s IH]; simpl; [congruence|].
  destruct (is_digit c || (code c =? 46)%nat) eqn:E; simpl; auto.
Qed.

Lemma digits_and_dots_fixed_plain s :
  digits_and_dots s = s -> s <> "" -> plain s.
Proof.
  intros E H. rewrite <- E. apply digits_and_dots_plain. now rewrite E.
Qed.

Lemma eqb_empty s : String.eqb s "" = true <-> s = "".
Proof. apply String.eqb_eq. Qed.

(** What [sortClusters] reads back from the text of a card is never
    negative. *)
Lemma card_points_nonneg c :
  card_points c = NaN \/ exists q, card_points c = Fin q /\ (0 <= q)%Q.
Proof.
  unfold card_points, read_points.
  set (t := digits_and_dots (textContent (cluster_points c))).
  destruct (String.eqb t "") eqn:E.
  - right. exists (inject_Z 0). split; [reflexivity|]. now vm_compute.
  - rewrite parseFloat_plain; [apply read_decimal_nonneg|].
    apply digits_and_dots_plain. intros H. fold t in H.
    apply eqb_empty in H. congruence.
Qed.

Lemma parseInt_cases s : parseInt s = NaN \/ exists z, parseInt s = of_Z z.
Proof.
  unfold parseInt. destruct (read_sign (skip_space s)) as [neg t].
  match goal with |- context [let '(v, n) := ?e in _] => destruct e as [v n] end.
  destruct (n =? 0)%nat; [now left|right; eauto].
Qed.

(** ** The order of the cards *)

#[local] Instance number_order_trans : Transitive number_order.
Proof. intros a b c. apply num_lt_trans. Qed.

#[local] Instance points_order_trans : Transitive points_order.
Proof.
  intros a b c [H1|[H1 H1']] [H2|[H2 H2']].
  - left. eapply num_lt_trans; eauto.
  - left. eapply num_eq_lt; [apply num_eq_sym; exact H2|exact H1].
  - left. eapply num_lt_eq; [exact H2|]. now apply num_eq_sym.
  - right. split; [eapply num_eq_trans | eapply num_lt_trans]; eauto.
Qed.

#[local] Instance order_of_trans m : Transitive (order_of m).
Proof. unfold order_of. destruct (_ || _); apply _. Qed.

Lemma points_order_asym a b : points_order a b -> points_order b a -> False.
Proof.
  intros [H1|[H1 H1']] [H2|[H2 H2']].
  - exact (num_lt_asym _ _ H1 H2).
  - exact (num_lt_not_eq _ _ H1 H2).
  - exact (num_lt_not_eq _ _ H2 H1).
  - exact (num_lt_asym _ _ H1' H2').
Qed.

Lemma order_of_asym m a b : order_of m a b -> order_of m b a -> False.
Proof.
  unfold order_of. destruct (_ || _).
  - apply points_order_asym.
  - apply num_lt_asym.
Qed.

Lemma grid_ok_decided l : grid_ok l -> StronglySorted decided l.
Proof.
  intros [Hr Hd Ht]. induction Ht as [|x l Ht IH Hx]; [constructor|].
  apply Forall_cons in Hr as [Hrx Hr]. simpl in Hd.
  apply NoDup_cons in Hd as [Hnx Hd].
  constructor; [auto|].
  rewrite Forall_forall in *. intros y Hy. repeat split; auto.
  - apply Hrx.
  - apply Hrx.
  - apply Hr, Hy.
  - apply Hr, Hy.
  - intros E. apply Hnx. rewrite E. now apply list_elem_of_fmap_2.
Qed.

Lemma ids_ordered a b :
  card_id a <> NaN -> card_id b <> NaN -> card_id a <> card_id b ->
  num_eq (card_id a) (card_id b) -> False.
Proof.
  unfold card_id.
  destruct (parseInt_cases (cluster_number a)) as [->|[x ->]]; [congruence|].
  destruct (parseInt_cases (cluster_number b)) as [->|[y ->]]; [congruence|].
  intros _ _ Hne H. unfold num_eq in H. rewrite of_Z_compare in H.
  injection H as H. apply Z.compare_eq in H. congruence.
Qed.

(** In the non-zero mode the comparator has the sign it has in the points
    mode: what is read from a card is never negative. *)
Lemma behind_non_zero a b :
  behind (compare_cards "non-zero" a b) = behind (compare_cards "points" a b).
Proof.
  unfold compare_cards; simpl.
  destruct (card_points_nonneg a) as [->|[p [-> Hp]]]; [reflexivity|].
  unfold num_strict_eq, num_gt, behind, num_gt, of_Z.
  destruct (card_points_nonneg b) as [->|[q [-> Hq]]]; simpl.
  { destruct (p ?= inject_Z 0)%Q; reflexivity. }
  destruct (Qcompare_cases p (inject_Z 0)) as [[E H]|[[E H]|[E H]]];
  destruct (Qcompare_cases q (inject_Z 0)) as [[E' H']|[[E' H']|[E' H']]];
    rewrite ?E, ?E'; simpl; try reflexivity; unfold inject_Z in *;
    try lra;
    destruct (Qcompare_cases (q - p) (0 # 1)) as [[F G]|[[F G]|[F G]]];
    rewrite F; trivial; try lra; vm_compute; try reflexivity.
Qed.

Lemma mode_cases m : mode_view m.
Proof.
  destruct (String.eqb m "number") eqn:E1;
    [apply is_number; now apply String.eqb_eq|].
  destruct (String.eqb m "points") eqn:E2;
    [apply is_points; now apply String.eqb_eq|].
  destruct (String.eqb m "non-zero") eqn:E3;
    [apply is_non_zero; now apply String.eqb_eq|].
  now apply is_other.
Qed.

(** Any other string sorts as ["number"] does. *)
Lemma compare_cards_default m a b :
  String.eqb m "number" = false -> String.eqb m "points" = false ->
  String.eqb m "non-zero" = false ->
  compare_cards m a b = compare_cards "number" a b.
Proof. intros E1 E2 E3. unfold compare_cards. now rewrite E1, E2, E3. Qed.

Lemma decided_number a b :
  decided a b ->
  if behind (compare_cards "number" a b)
  then number_order b a else number_order a b.
Proof.
  intros [[Ha _] [[Hb _] [Hne _]]]. unfold compare_cards; simpl.
  destruct (behind _) eqn:E.
  - now apply behind_sub in E.
  - apply behind_sub_false in E as [E|E]; trivial.
    destruct (ids_ordered a b Ha Hb Hne E).
Qed.

Lemma decided_points a b :
  decided a b ->
  if behind (compare_cards "points" a b)
  then points_order b a else points_order a b.
Proof.
  intros [[_ Ha] [[_ Hb] [_ Ht]]]. unfold compare_cards; simpl.
  destruct (behind _) eqn:E.
  - apply behind_sub in E. now left.
  - apply behind_sub_false in E as [E|E]; trivial.
    + now left.
    + right. apply num_eq_sym in E. auto.
Qed.

Lemma decided_order m a b :
  decided a b ->
  if behind (compare_cards m a b) then order_of m b a else order_of m a b.
Proof.
  intros H. destruct (mode_cases m) as [->| ->| ->|E1 E2 E3].
  - now apply decided_number.
  - now apply decided_points.
  - rewrite behind_non_zero. now apply decided_points.
  - rewrite (compare_cards_default m a b E1 E2 E3).
    unfold order_of. rewrite E2, E3. now apply decided_number.
Qed.

(** On a grid of the page, every mode sorts along its order. *)
Lemma sort_cards_sorted m l :
  grid_ok l -> StronglySorted (order_of m) (sort (compare_cards m) l).
Proof.
  intros H. eapply sort_sorted; [apply _| |apply grid_ok_decided, H].
  intros x y. apply decided_order.
Qed.

Lemma order_of_ties m a b : order_of m a b -> ties_ascending a b.
Proof.
  unfold order_of, ties_ascending. destruct (_ || _).
  - intros [H|[_ H]] E; trivial.
    apply num_eq_sym in E. destruct (num_lt_not_eq _ _ H E).
  - intros H _. exact H.
Qed.

Lemma StronglySorted_weaken {A : Type} (R S : relation A) (l : list A) :
  (forall x y, R x y -> S x y) -> StronglySorted R l -> StronglySorted S l.
Proof.
  intros H HS. rewrite <- (map_id l).
  eapply StronglySorted_map_in; [|exact HS]. intros; now apply H.
Qed.

Lemma sort_cards_ok m l : grid_ok l -> grid_ok (sort (compare_cards m) l).
Proof.
  intros H. split.
  - rewrite sort_perm. apply H.
  - rewrite sort_perm. apply H.
  - eapply StronglySorted_weaken; [apply (order_of_ties m)|].
    now apply sort_cards_sorted.
Qed.

(** Two grids of the page with the same cards sort to the same grid. *)
Lemma sort_cards_unique m l l' :
  grid_ok l -> grid_ok l' -> l ≡ₚ l' ->
  sort (compare_cards m) l = sort (compare_cards m) l'.
Proof.
  intros H H' E.
  apply (StronglySorted_unique_strong (order_of m)).
  - intros x y _ _ H1 H2. destruct (order_of_asym m x y H1 H2).
  - now apply sort_cards_sorted.
  - now apply sort_cards_sorted.
  - now rewrite !sort_perm.
Qed.

(** ** Showing and hiding *)

Lemma show_or_hide_set_display m c :
  exists d, show_or_hide m c = set_display d c.
Proof. unfold show_or_hide. destruct (String.eqb m "non-zero"); eauto. Qed.

Lemma card_id_show_or_hide m c : card_id (show_or_hide m c) = card_id c.
Proof. destruct (show_or_hide_set_display m c) as [d ->]. reflexivity. Qed.

Lemma card_points_show_or_hide m c :
  card_points (show_or_hide m c) = card_points c.
Proof. destruct (show_or_hide_set_display m c) as [d ->]. reflexivity. Qed.

Lemma compare_cards_show_or_hide m m' a b :
  compare_cards m (show_or_hide m' a) (show_or_hide m' b)
  = compare_cards m a b.
Proof.
  unfold compare_cards.
  now rewrite !card_id_show_or_hide, !card_points_show_or_hide.
Qed.

Lemma show_or_hide_twice m m' c :
  show_or_hide m (show_or_hide m' c) = show_or_hide m c.
Proof.
  unfold show_or_hide at 1 3. rewrite card_points_show_or_hide.
  destruct (show_or_hide_set_display m' c) as [d ->].
  destruct (String.eqb m "non-zero"); reflexivity.
Qed.

Lemma grid_ok_show_or_hide m l : grid_ok l -> grid_ok (map (show_or_hide m) l).
Proof.
  intros [Hr Hd Ht]. split.
  - apply Forall_fmap. eapply Forall_impl; [exact Hr|].
    intros c Hc. unfold readable in *; simpl.
    now rewrite card_id_show_or_hide, card_points_show_or_hide.
  - rewrite map_map. erewrite map_ext; [exact Hd|].
    intros c. apply card_id_show_or_hide.
  - eapply StronglySorted_map_in; [|exact Ht].
    intros x y _ _. unfold ties_ascending.
    now rewrite !card_id_show_or_hide, !card_points_show_or_hide.
Qed.

Lemma sortClusters_ok m pg :
  grid_ok (clusterGrid pg) -> grid_ok (clusterGrid (sortClusters m pg)).
Proof. intros H. simpl. now apply grid_ok_show_or_hide, sort_cards_ok. Qed.

(** Sorting twice is sorting once with the last mode. *)
Lemma sortClusters_twice m1 m2 pg :
  grid_ok (clusterGrid pg) ->
  sortClusters m2 (sortClusters m1 pg) = sortClusters m2 pg.
Proof.
  intros H. unfold sortClusters; simpl. f_equal.
  rewrite (sort_map (show_or_hide m1) (compare_cards m2) (compare_cards m2))
    by (intros; apply compare_cards_show_or_hide).
  rewrite map_map.
  rewrite (sort_cards_unique m2 _ (clusterGrid pg));
    [|now apply sort_cards_ok|trivial|apply sort_perm].
  apply map_ext. intros c. apply show_or_hide_twice.
Qed.

(** ** The clusters of a response *)

Lemma collect_elem data c :
  c ∈ collect_clusters data <->
  exists i s, i ∈ seq 1 20 /\ result_of data (clusterKey i) = Some s
    /\ c = {| id := i; name := clusterKey i; points := parseFloat s;
              pointsFormatted := s;
              description := description_of data (clusterKey i) |}.
Proof.
  unfold collect_clusters. rewrite list_elem_of_In, in_flat_map. split.
  - intros [i [Hi Hc]]. unfold cluster_at in Hc.
    destruct (result_of data (clusterKey i)) as [s|] eqn:E; [|destruct Hc].
    destruct Hc as [<-|[]]. exists i, s. now rewrite list_elem_of_In.
  - intros [i [s [Hi [E ->]]]]. exists i. rewrite <- list_elem_of_In.
    split; [trivial|]. unfold cluster_at. rewrite E. now left.
Qed.

Lemma seq_sorted a n : StronglySorted lt (seq a n).
Proof.
  revert a. induction n as [|n IH]; intros a; simpl; constructor; [apply IH|].
  apply Forall_forall. intros x Hx. apply list_elem_of_In, in_seq in Hx. lia.
Qed.

(** The loop pushes the clusters in the order of their ids. *)
Lemma collect_sorted data :
  StronglySorted (fun a b => (id a < id b)%nat) (collect_clusters data).
Proof.
  unfold collect_clusters. generalize (seq_sorted 1 20).
  generalize (seq 1 20) as l. intros l H.
  induction H as [|i l H IH Hi]; simpl; [constructor|].
  unfold cluster_at at 1. destruct (result_of data (clusterKey i)); [|exact IH].
  simpl. constructor; [exact IH|].
  apply Forall_forall. intros c Hc. simpl.
  apply list_elem_of_In, in_flat_map in Hc as [j [Hj Hc]].
  rewrite Forall_forall in Hi. apply list_elem_of_In, Hi in Hj.
  unfold cluster_at in Hc. destruct (result_of data (clusterKey j)); [|destruct Hc].
  destruct Hc as [<-|[]]. exact Hj.
Qed.

Lemma StronglySorted_NoDup {A : Type} (R : relation A) (l : list A) :
  (forall x, ~ R x x) -> StronglySorted R l -> NoDup l.
Proof.
  intros Hirr H. induction H as [|x l H IH Hx]; constructor; [|exact IH].
  intros Hin. rewrite Forall_forall in Hx. exact (Hirr x (Hx x Hin)).
Qed.

Lemma collect_ids_distinct data : NoDup (map id (collect_clusters data)).
Proof.
  apply (StronglySorted_NoDup lt); [intros x; lia|].
  eapply StronglySorted_map_in; [|apply collect_sorted]. auto.
Qed.

Lemma each_result_elem ok data c :
  each_result ok data = true -> c ∈ collect_clusters data ->
  ok (pointsFormatted c) = true /\ points c = parseFloat (pointsFormatted c)
  /\ id c ∈ seq 1 20.
Proof.
  unfold each_result. rewrite forallb_forall.
  intros H Hc. apply collect_elem in Hc as [i [s [Hi [E ->]]]].
  cbn [pointsFormatted points id]. assert (Hs := Hi).
  apply list_elem_of_In, H in Hs. rewrite E in Hs. auto.
Qed.

Lemma normalized_parsed data : normalized data = true -> parsed data = true.
Proof.
  unfold normalized, parsed, each_result. rewrite !forallb_forall.
  intros H i Hi. specialize (H i Hi).
  destruct (result_of data (clusterKey i)); [|trivial].
  unfold canonical in H. now apply andb_true_iff in H as [_ H].
Qed.

Lemma not_nan v : negb (is_nan v) = true <-> v <> NaN.
Proof. destruct v; simpl; split; congruence. Qed.

#[local] Instance cluster_order_trans : Transitive cluster_order.
Proof.
  intros a b c [H1|[H1 H1']] [H2|[H2 H2']].
  - left. eapply num_lt_trans; eauto.
  - left. eapply num_eq_lt; [apply num_eq_sym; exact H2|exact H1].
  - left. eapply num_lt_eq; [exact H2|]. now apply num_eq_sym.
  - right. split; [eapply num_eq_trans; eauto | lia].
Qed.

(** With scores that parse, sorting the clusters by the comparator of line
    129 puts them in [cluster_order]. *)
Lemma sorted_clusters_sorted data :
  parsed data = true -> StronglySorted cluster_order (sorted_clusters data).
Proof.
  intros Hp. unfold sorted_clusters.
  apply (sort_sorted by_points_desc cluster_order
           (fun a b => (id a < id b)%nat /\ points a <> NaN /\ points b <> NaN)).
  - intros a b [Hid [Ha Hb]]. unfold by_points_desc.
    destruct (behind _) eqn:E.
    + apply behind_sub in E. now left.
    + apply behind_sub_false in E as [E|E]; trivial.
      * now left.
      * right. split; [now apply num_eq_sym | trivial].
  - rewrite <- (map_id (collect_clusters data)).
    eapply StronglySorted_map_in; [|apply collect_sorted].
    intros a b Ha Hb Hid. simpl.
    destruct (each_result_elem _ _ a Hp Ha) as [Ha1 [Ha2 _]].
    destruct (each_result_elem _ _ b Hp Hb) as [Hb1 [Hb2 _]].
    rewrite Ha2, Hb2. apply not_nan in Ha1, Hb1. auto.
Qed.

Lemma sorted_clusters_perm data : sorted_clusters data ≡ₚ collect_clusters data.
Proof. apply sort_perm. Qed.

(** ** The cards of a response *)

Lemma id_round_trip i : i ∈ seq 1 20 -> parseInt (show_nat i) = of_nat i.
Proof.
  assert (Forall (fun i => parseInt (show_nat i) = of_nat i) (seq 1 20)) as H.
  { simpl seq. repeat (constructor; [vm_compute; reflexivity|]). constructor. }
  rewrite Forall_forall in H. apply H.
Qed.

Lemma num_eq_refl v : v <> NaN -> num_eq v v.
Proof. intros H. num_solve. Qed.

(** The points read back from the rendering of a canonical score are the
    points parsed from the score. *)
Lemma read_points_fixed s :
  digits_and_dots s = s -> s <> "" -> read_points s = parseFloat s.
Proof.
  intros E H. unfold read_points. rewrite E.
  destruct (String.eqb s "") eqn:F; [apply eqb_empty in F; congruence|trivial].
Qed.

Lemma canonical_points c :
  canonical (pointsFormatted c) = true ->
  points c = parseFloat (pointsFormatted c) ->
  num_eq (card_points (make_card c)) (points c).
Proof.
  intros Hc ->. unfold canonical in Hc.
  apply andb_true_iff in Hc as [Hd Hn].
  apply String.eqb_eq in Hd. apply not_nan in Hn.
  set (s := pointsFormatted c) in *.
  assert (s <> "") as Hs by (intros E; rewrite E in Hn; now apply Hn).
  assert (plain s) as Hp by now apply digits_and_dots_fixed_plain.
  assert (num_eq (read_points s) (parseFloat s)) as Hsame.
  { rewrite read_points_fixed by trivial. now apply num_eq_refl. }
  unfold card_points, make_card; cbn [cluster_points]. fold s.
  unfold formatClusterPoints.
  destruct (num_ge (parseFloat s) (of_Z 30)); [exact Hsame|].
  destruct (num_ge (parseFloat s) (of_Z 15)); [exact Hsame|].
  destruct (num_gt (parseFloat s) (of_Z 0)) eqn:G; [exact Hsame|].
  cbn [textContent]. clear Hsame.
  rewrite (parseFloat_plain s Hp) in *.
  destruct (read_decimal_nonneg s) as [E|[q [E Hq]]]; [congruence|].
  rewrite E in *. unfold num_gt, of_Z in G. cbn [num_compare] in G.
  replace (read_points "0.000") with (Fin (0 # 1000))
    by (vm_compute; reflexivity).
  unfold num_eq; cbn [num_compare]. f_equal.
  destruct (Qcompare_cases q (inject_Z 0)) as [[F H]|[[F H]|[F H]]];
    rewrite F in G; try discriminate; unfold inject_Z in *; try lra.
  apply (proj1 (Qeq_alt _ _)). rewrite H. reflexivity.
Qed.

Lemma make_card_faithful data c :
  normalized data = true -> c ∈ collect_clusters data ->
  faithful (make_card c).
Proof.
  intros Hn Hc. destruct (each_result_elem _ _ c Hn Hc) as [H1 [H2 H3]].
  split; simpl.
  - now apply id_round_trip.
  - now apply canonical_points.
Qed.

Lemma faithful_readable c : faithful c -> readable c.
Proof.
  intros [H1 H2]. split.
  - rewrite H1. discriminate.
  - intros E. rewrite E in H2. discriminate.
Qed.

(** ** What the grid shows of a response *)

Lemma cluster_order_ties a b :
  faithful (make_card a) -> faithful (make_card b) ->
  cluster_order a b -> ties_ascending (make_card a) (make_card b).
Proof.
  intros [Ia Pa] [Ib Pb] H E. simpl in *. rewrite Ia, Ib.
  assert (num_eq (points a) (points b)) as E'.
  { eapply num_eq_trans; [apply num_eq_sym; exact Pa|].
    eapply num_eq_trans; [exact E|exact Pb]. }
  destruct H as [H|[_ H]].
  - apply num_eq_sym in E'. destruct (num_lt_not_eq _ _ H E').
  - now apply of_nat_lt.
Qed.

Lemma displayResults_shows data pg :
  normalized data = true -> shows data (clusterGrid (displayResults data pg)).
Proof.
  intros Hn. simpl.
  assert (forall c, c ∈ sorted_clusters data -> faithful (make_card c)) as Hf.
  { intros c Hc. apply (make_card_faithful data); [trivial|].
    now rewrite <- sorted_clusters_perm. }
  assert (Forall faithful (map make_card (sorted_clusters data))) as Hall.
  { apply Forall_fmap, Forall_forall. exact Hf. }
  split; [split| |].
  - eapply Forall_impl; [exact Hall|]. apply faithful_readable.
  - rewrite map_map.
    rewrite (map_ext_in _ (fun c => of_nat (id c))).
    + rewrite <- (map_map id of_nat). apply (NoDup_fmap_2 of_nat).
      rewrite sorted_clusters_perm. apply collect_ids_distinct.
    + intros c Hc. apply list_elem_of_In, Hf in Hc. apply Hc.
  - eapply StronglySorted_map_in;
      [|apply sorted_clusters_sorted, normalized_parsed, Hn].
    intros a b Ha Hb. apply cluster_order_ties; auto.
  - exact Hall.
  - rewrite map_map. simpl. rewrite map_id. apply sorted_clusters_perm.
Qed.

Lemma onclick_show_or_hide m c : onclick (show_or_hide m c) = onclick c.
Proof. destruct (show_or_hide_set_display m c) as [d ->]. reflexivity. Qed.

Lemma sortClusters_shows data m pg :
  shows data (clusterGrid pg) -> shows data (clusterGrid (sortClusters m pg)).
Proof.
  intros [Hok Hf Hr]. split.
  - now apply sortClusters_ok.
  - simpl. apply Forall_fmap. rewrite sort_perm.
    eapply Forall_impl; [exact Hf|]. intros c [H1 H2]. split; simpl.
    + now rewrite card_id_show_or_hide, onclick_show_or_hide.
    + now rewrite card_points_show_or_hide, onclick_show_or_hide.
  - simpl. rewrite map_map.
    rewrite (map_ext _ onclick) by (intros; apply onclick_show_or_hide).
    now rewrite sort_perm.
Qed.

Lemma sorts_shows data modes pg :
  shows data (clusterGrid pg) ->
  shows data (clusterGrid (fold_left (fun p m => sortClusters m p) modes pg)).
Proof.
  revert pg. induction modes as [|m modes IH]; intros pg H; simpl; [exact H|].
  apply IH. now apply sortClusters_shows.
Qed.

Lemma page_after_shows data modes pg :
  normalized data = true ->
  shows data (clusterGrid (page_after data modes pg)).
Proof. intros H. apply sorts_shows. now apply displayResults_shows. Qed.

(** Faithful cards in the order of the points mode hold records in
    [cluster_order]. *)
Lemma records_sorted l :
  Forall faithful l -> StronglySorted points_order l ->
  StronglySorted cluster_order (map onclick l).
Proof.
  intros Hf. apply StronglySorted_map_in. intros a b Ha Hb H.
  rewrite Forall_forall in Hf.
  destruct (Hf a Ha) as [Ia Pa]. destruct (Hf b Hb) as [Ib Pb].
  destruct H as [H|[H H']].
  - left. eapply num_eq_lt; [apply num_eq_sym; exact Pb|].
    eapply num_lt_eq; [exact H|exact Pa].
  - right. split.
    + eapply num_eq_trans; [apply num_eq_sym; exact Pa|].
      eapply num_eq_trans; [exact H|exact Pb].
    + rewrite Ia, Ib in H'. now apply of_nat_lt.
Qed.

Lemma sorted_grid_records data m pg :
  shows data (clusterGrid pg) ->
  order_of m = points_order ->
  StronglySorted cluster_order (map onclick (clusterGrid (sortClusters m pg))).
Proof.
  intros H Hm. apply records_sorted.
  - apply (sortClusters_shows data m pg H).
  - simpl. eapply StronglySorted_map_in;
      [|apply (sort_cards_sorted m), H].
    intros a b _ _. rewrite Hm. unfold points_order.
    now rewrite !card_id_show_or_hide, !card_points_show_or_hide.
Qed.

(** ** The top grid *)

Lemma indexOf_lookup (l : list cluster) : forall i c,
  NoDup (map id l) -> l !! i = Some c -> indexOf l c = Z.of_nat i.
Proof.
  induction l as [|x l IH]; intros i c Hd Hi; [discriminate|].
  simpl in Hd. apply NoDup_cons in Hd as [Hx Hd].
  destruct i as [|i]; simpl in *.
  - injection Hi as ->. now rewrite Nat.eqb_refl.
  - destruct (id x =? id c)%nat eqn:E.
    + apply Nat.eqb_eq in E. destruct Hx. rewrite E.
      apply list_elem_of_fmap_2. eapply list_elem_of_lookup_2; eauto.
    + rewrite (IH i c Hd Hi).
      destruct (Z.of_nat i <? 0)%Z eqn:F; [apply Z.ltb_lt in F|]; lia.
Qed.

Lemma sorts_top modes pg :
  topClustersGrid (fold_left (fun p m => sortClusters m p) modes pg)
  = topClustersGrid pg.
Proof.
  revert pg. induction modes as [|m modes IH]; intros pg; simpl; [trivial|].
  now rewrite IH.
Qed.

Lemma num_strict_eq_compat a b c :
  num_eq a b -> num_strict_eq a c = num_strict_eq b c.
Proof.
  intros H. unfold num_strict_eq.
  destruct (num_compare a c) as [[]|] eqn:E1;
  destruct (num_compare b c) as [[]|] eqn:E2; trivial; exfalso; num_solve.
Qed.

Lemma num_ge_le a b : num_ge a b = true <-> num_le b a.
Proof.
  unfold num_ge, num_le, num_lt, num_eq.
  destruct a, b; simpl; try (split; [congruence|intros []; congruence]);
    try (split; auto; fail).
  destruct (Qcompare_cases q q0) as [[E H]|[[E H]|[E H]]];
  destruct (Qcompare_cases q0 q) as [[E' H']|[[E' H']|[E' H']]];
    rewrite E, E'; try lra; split; auto; try congruence;
    intros []; congruence.
Qed.

Lemma num_gt_lt a b : num_gt a b = true <-> num_lt b a.
Proof.
  unfold num_gt, num_lt.
  destruct a, b; simpl; try (split; congruence).
  destruct (Qcompare_cases q q0) as [[E H]|[[E H]|[E H]]];
  destruct (Qcompare_cases q0 q) as [[E' H']|[[E' H']|[E' H']]];
    rewrite E, E'; try lra; split; congruence.
Qed.

Lemma num_ge_false a b : num_lt a b -> num_ge a b = false.
Proof.
  intros H. destruct (num_ge a b) eqn:E; trivial.
  apply num_ge_le in E as [E|E].
  - destruct (num_lt_asym _ _ H E).
  - apply num_eq_sym in E. destruct (num_lt_not_eq _ _ H E).
Qed.

Lemma num_gt_false a b : num_le a b -> num_gt a b = false.
Proof.
  intros H. destruct (num_gt a b) eqn:E; trivial.
  apply num_gt_lt in E. destruct H as [H|H].
  - destruct (num_lt_asym _ _ H E).
  - apply num_eq_sym in H. destruct (num_lt_not_eq _ _ E H).
Qed.

(** * The tiers *)

(** C4. For every score, with [v] the number parsed from it:
    [v == 0] gives the zero tier with the text "0.000", whatever the score
    was written as; [v >= 30] gives the high tier with the score unchanged;
    [15 <= v < 30] the medium tier; [0 < v < 15] the low tier (the bare
    score).  So 30 is high, 29.999 and 15 are medium, 14.999 is low, and 0,
    written "0", "0.00" or otherwise, is zero with the text "0.000". *)
Theorem formatClusterPoints_tiers (points : string) :
  let v := parseFloat points in
  (num_eq v (of_Z 0) ->
     formatClusterPoints points = Span "points-zero" "0.000")
  /\ (num_le (of_Z 30) v ->
     formatClusterPoints points = Span "points-high" points)
  /\ (num_le (of_Z 15) v -> num_lt v (of_Z 30) ->
     formatClusterPoints points = Span "points-medium" points)
  /\ (num_lt (of_Z 0) v -> num_lt v (of_Z 15) ->
     formatClusterPoints points = Text points)
  /\ map (fun s => tier_of (formatClusterPoints s))
         ["30"; "29.999"; "15"; "14.999"; "0"]
     = [Some high; Some medium; Some medium; Some low; Some zero]
  /\ map formatClusterPoints ["0"; "0.00"; "0.000"]
     = [Span "points-zero" "0.000"; Span "points-zero" "0.000";
        Span "points-zero" "0.000"].
Proof.
  intros v. split; [|split; [|split; [|split; [|split]]]].
  - intros H. unfold formatClusterPoints. fold v.
    rewrite (num_ge_false v (of_Z 30)), (num_ge_false v (of_Z 15)),
      (num_gt_false v (of_Z 0)); trivial; [now right| |];
      (eapply num_eq_lt; [exact H|vm_compute; reflexivity]).
  - intros H. unfold formatClusterPoints. fold v.
    apply num_ge_le in H. now rewrite H.
  - intros H1 H2. unfold formatClusterPoints. fold v.
    apply num_ge_le in H1. now rewrite (num_ge_false _ _ H2), H1.
  - intros H1 H2. unfold formatClusterPoints. fold v.
    apply num_gt_lt in H1.
    rewrite (num_ge_false v (of_Z 30)), (num_ge_false _ _ H2), H1; trivial.
    eapply num_lt_trans; [exact H2|vm_compute; reflexivity].
  - vm_compute; reflexivity.
  - vm_compute; reflexivity.
Qed.

Lemma formatClusterPoints_tiers_witness :
  formatClusterPoints "29.999" = Span "points-medium" "29.999"
  /\ formatClusterPoints "7.250" = Text "7.250".
Proof.
  split.
  - apply (formatClusterPoints_tiers "29.999");
      [left|]; vm_compute; reflexivity.
  - apply (formatClusterPoints_tiers "7.250"); vm_compute; reflexivity.
Defined.

(** C9. A score that [parseFloat] reads as [NaN] is rendered in the zero
    tier with the text "0.000": every comparison with [NaN] fails and the
    last [return] is reached.  It is rendered exactly as a score of zero. *)
Theorem formatClusterPoints_nan (points : string) :
  parseFloat points = NaN ->
  formatClusterPoints points = Span "points-zero" "0.000"
  /\ tier_of (formatClusterPoints points) = Some zero
  /\ formatClusterPoints points = formatClusterPoints "0.000".
Proof.
  intros H.
  assert (formatClusterPoints points = Span "points-zero" "0.000") as E
    by (unfold formatClusterPoints; rewrite H; reflexivity).
  rewrite E. repeat split; vm_compute; reflexivity.
Qed.

Lemma formatClusterPoints_nan_witness :
  formatClusterPoints "abc" = Span "points-zero" "0.000"
  /\ tier_of (formatClusterPoints "abc") = Some zero
  /\ formatClusterPoints "abc" = formatClusterPoints "0.000".
Proof. apply (formatClusterPoints_nan "abc"). vm_compute; reflexivity. Defined.

(** * The clusters built from a response *)

(** C6, as the code has it.  A score that is present and does not parse is
    not dropped and no error is reported: the loop pushes the cluster with
    [points] equal to [NaN] (not zero) and the text it was given, the
    cluster stays in the array after the sort, and its card is shown. *)
Theorem unparsed_score_is_kept (data : response) (pg : page) (i : nat)
    (s : string) :
  (1 <= i <= 20)%nat ->
  result_of data (clusterKey i) = Some s ->
  parseFloat s = NaN ->
  let c := {| id := i; name := clusterKey i; points := NaN;
              pointsFormatted := s;
              description := description_of data (clusterKey i) |} in
  c ∈ collect_clusters data
  /\ c ∈ sorted_clusters data
  /\ make_card c ∈ clusterGrid (displayResults data pg)
  /\ num_strict_eq (points c) (of_Z 0) = false.
Proof.
  intros Hi Hs Hn c.
  assert (c ∈ collect_clusters data) as Hc.
  { apply collect_elem. exists i, s. repeat split; trivial.
    - apply list_elem_of_In, in_seq. lia.
    - unfold c. now rewrite Hn. }
  assert (c ∈ sorted_clusters data) as Hc'
    by now rewrite sorted_clusters_perm.
  repeat split; trivial.
  simpl. now apply list_elem_of_fmap_2.
Qed.

Lemma unparsed_score_is_kept_witness :
  let c := {| id := 1; name := "Cluster 1"; points := NaN;
              pointsFormatted := "abc"; description := "" |} in
  c ∈ collect_clusters unparsed_data
  /\ c ∈ sorted_clusters unparsed_data
  /\ make_card c ∈ clusterGrid (displayResults unparsed_data blank_page)
  /\ num_strict_eq (points c) (of_Z 0) = false.
Proof.
  apply (unparsed_score_is_kept unparsed_data blank_page 1 "abc");
    [lia | vm_compute; reflexivity | vm_compute; reflexivity].
Defined.

(** C6, as the claim has it, fails: with "abc" for Cluster 1, the list
    built from the response still holds cluster 1, with [NaN] points. *)
Lemma unparsed_score_not_dropped :
  collect_clusters unparsed_data
  = [ {| id := 1; name := "Cluster 1"; points := NaN;
         pointsFormatted := "abc"; description := "" |};
      {| id := 2; name := "Cluster 2"; points := Fin (12000 # 1000);
         pointsFormatted := "12.000"; description := "" |} ].
Proof. vm_compute. reflexivity. Qed.

(** * The top grid *)

(** C2, as the code has it.  For the three scores "32.500", "32.500" and
    "0.000" the top grid has three cards: cluster 1 with badge 1, cluster 2
    with badge 2 and cluster 3, whose points are zero, with badge 3. *)
Theorem example_highlights :
  highlights (displayResults example_data blank_page)
  = [(1%nat, 1%Z); (2%nat, 2%Z); (3%nat, 3%Z)]
  /\ map (fun t => top_points t)
         (topClustersGrid (displayResults example_data blank_page))
     = [Span "points-high" "32.500"; Span "points-high" "32.500";
        Span "points-zero" "0.000"].
Proof. split; vm_compute; reflexivity. Qed.

(** C2, as the claim has it, fails: the top grid is not the two cards of
    clusters 1 and 2, the zero cluster takes the third place. *)
Lemma example_highlights_not_two :
  highlights (displayResults example_data blank_page)
  <> [(1%nat, 1%Z); (2%nat, 2%Z)]
  /\ length (topClustersGrid (displayResults example_data blank_page)) = 3%nat.
Proof. split; [vm_compute; discriminate | vm_compute; reflexivity]. Qed.

(** * The details of a cluster *)

Lemma forEach_subjects (l : list subject) : forall h z,
  fold_left add_subject l (h, z)
  = (h ++ map subject_item l, (z + arithmetic_sum (map s_points l))%Z).
Proof.
  induction l as [|s l IH]; intros h z; cbn [fold_left map arithmetic_sum].
  - now rewrite app_nil_r, Z.add_0_r.
  - change (add_subject (h, z) s)
      with (h ++ [subject_item s], (z + s_points s)%Z).
    rewrite IH, <- app_assoc. simpl. f_equal. lia.
Qed.

(** With a binding for [html], the call appends the heading, one item for
    each subject and the total of their points over 48, and shows the
    modal. *)
Lemma showClusterDetails_declared html0 m clusterId clusterName points_text
    (subjectsUsed : list subject) :
  subjectsUsed <> [] ->
  showClusterDetails (Some html0) m clusterId clusterName points_text
    (Some subjectsUsed)
  = ({| modalTitle := clusterName +:+ " Details";
        modalContent :=
          html0 ++ [SubjectsHeading] ++ map subject_item subjectsUsed
          ++ [TotalLine (arithmetic_sum (map s_points subjectsUsed)) 48];
        shown := true |}, Normal).
Proof.
  intros H. destruct subjectsUsed as [|s r]; [congruence|].
  unfold showClusterDetails. rewrite forEach_subjects.
  rewrite <- !app_assoc. reflexivity.
Qed.

(** A click on a card raises as soon as the cluster has a detail record,
    and does nothing otherwise. *)
Lemma click_raises m data c :
  click None m data c
  = match details data !! clusterKey (id c) with
    | Some _ =>
        ({| modalTitle := name c +:+ " Details";
            modalContent := modalContent m;
            shown := shown m |}, Throw (ReferenceError "html"))
    | None => (m, Normal)
    end.
Proof. unfold click. now destruct (details data !! clusterKey (id c)). Qed.

(** C8.  The code does not do what the claim says.  script.js declares no
    [html]; every call of [showClusterDetails], whatever its arguments,
    sets the title and then raises [ReferenceError] on [html]: the content
    of the modal is left as it was, the modal is not shown, and no total
    is written.  For the two subjects of 12 and 10 points, on the modal of
    the loaded page, the content stays empty: there is no item and no
    line [22 / 48]. *)
Theorem showClusterDetails_raises (m : modal) (clusterId : nat)
    (clusterName points_text : string) (subjectsUsed : option (list subject)) :
  showClusterDetails None m clusterId clusterName points_text subjectsUsed
  = ({| modalTitle := clusterName +:+ " Details";
        modalContent := modalContent m;
        shown := shown m |}, Throw (ReferenceError "html"))
  /\ showClusterDetails None closed_modal 1 "Cluster 1" "22.000"
       (Some example_subjects)
     = ({| modalTitle := "Cluster 1 Details";
           modalContent := [];
           shown := false |}, Throw (ReferenceError "html"))
  /\ arithmetic_sum (map s_points example_subjects) = 22%Z
  /\ TotalLine 22 48
     ∉ modalContent
         (fst (showClusterDetails None closed_modal 1 "Cluster 1" "22.000"
                 (Some example_subjects))).
Proof.
  split; [reflexivity|]. split; [reflexivity|]. split; [reflexivity|].
  cbn. apply not_elem_of_nil.
Qed.

(** * Sorting the grid *)

Lemma num_le_trans a b c : num_le a b -> num_le b c -> num_le a c.
Proof.
  intros [H1|H1] [H2|H2].
  - left. eapply num_lt_trans; eauto.
  - left. eapply num_lt_eq; eauto.
  - left. eapply num_eq_lt; eauto.
  - right. eapply num_eq_trans; eauto.
Qed.

Lemma Forall_pairs {A : Type} (Q : A -> Prop) (l : list A) :
  Forall Q l -> StronglySorted (fun a b => Q a /\ Q b) l.
Proof.
  induction 1 as [|x l Hx Hl IH]; constructor; [exact IH|].
  eapply Forall_impl; [exact Hl|]. intros y Hy. now split.
Qed.

#[local] Instance number_le_trans : Transitive number_le.
Proof. intros a b c. apply num_le_trans. Qed.

(** Sorting by number puts the numbers in increasing order as soon as they
    all read as numbers. *)
Lemma sort_by_number_sorted l :
  Forall (fun c => card_id c <> NaN) l ->
  StronglySorted number_le (sort (compare_cards "number") l).
Proof.
  intros H.
  apply (sort_sorted (compare_cards "number") number_le
           (fun a b => card_id a <> NaN /\ card_id b <> NaN)).
  - intros a b [Ha Hb]. unfold compare_cards, number_le; simpl.
    destruct (behind _) eqn:E.
    + apply behind_sub in E. now left.
    + now apply behind_sub_false in E.
  - now apply Forall_pairs.
Qed.

Lemma set_display_show_or_hide d m c :
  set_display d (show_or_hide m c) = set_display d c.
Proof. destruct (show_or_hide_set_display m c) as [d' ->]. reflexivity. Qed.

(** Whatever the mode, the grid keeps its cards: only their order and
    their [display] change. *)
Lemma sortClusters_keeps_cards m pg d :
  map (set_display d) (clusterGrid (sortClusters m pg))
  ≡ₚ map (set_display d) (clusterGrid pg).
Proof.
  simpl. rewrite map_map.
  rewrite (map_ext _ (set_display d))
    by (intros; apply set_display_show_or_hide).
  now rewrite sort_perm.
Qed.

(** A sort mode that is none of "number", "points" and "non-zero" takes
    the default branch of the switch and the else branch of the display:
    on every page it does what "number" does. *)
Lemma sortClusters_default_branch (m : string) (pg : page) :
  m <> "number" -> m <> "points" -> m <> "non-zero" ->
  sortClusters m pg = sortClusters "number" pg.
Proof.
  intros H1 H2 H3. apply String.eqb_neq in H1, H2, H3.
  unfold sortClusters. f_equal.
  rewrite (sort_ext (compare_cards m) (compare_cards "number"))
    by (intros; now rewrite compare_cards_default).
  apply map_ext. intros c. unfold show_or_hide. now rewrite H3.
Qed.





(** C3.  With scores that parse, the top grid holds the first three
    clusters (all of them when there are fewer) of the array sorted at line
    129, which is in decreasing points and, for equal points, increasing
    id; the card at place [i] (from 0) carries the badge [i + 1].  No
    [sortClusters], in any mode, before or after, changes the top grid. *)
Theorem top_three (data : response) (pg : page) (modes : list string)
    (m : string) :
  parsed data = true ->
  let clusters := sorted_clusters data in
  let top := topClustersGrid (displayResults data pg) in
  (length top <= 3)%nat
  /\ length top = Nat.min 3 (length clusters)
  /\ StronglySorted cluster_order clusters
  /\ clusters ≡ₚ collect_clusters data
  /\ (forall i t, top !! i = Some t ->
        clusters !! i = Some (top_onclick t)
        /\ top_badge t = (Z.of_nat i + 1)%Z)
  /\ topClustersGrid (page_after data modes pg) = top
  /\ topClustersGrid (displayResults data (sortClusters m pg)) = top.
Proof.
  intros Hp clusters top.
  assert (length top = Nat.min 3 (length clusters)) as Hlen.
  { subst top. simpl. unfold top_of. now rewrite length_map, length_take. }
  split; [lia|]. split; [exact Hlen|].
  split; [now apply sorted_clusters_sorted|].
  split; [apply sorted_clusters_perm|].
  split; [|split; [apply sorts_top|reflexivity]].
  intros i t Hi. subst top. simpl in Hi. fold clusters in Hi.
  apply list_lookup_fmap_Some in Hi as [c [-> Hc]].
  unfold top_of in Hc. apply lookup_take_Some in Hc as [Hc _].
  split; [exact Hc|]. simpl. f_equal.
  apply indexOf_lookup; [|exact Hc].
  subst clusters. rewrite sorted_clusters_perm. apply collect_ids_distinct.
Qed.

Lemma top_three_witness :
  let clusters := sorted_clusters example_data in
  let top := topClustersGrid (displayResults example_data blank_page) in
  (length top <= 3)%nat
  /\ length top = Nat.min 3 (length clusters)
  /\ StronglySorted cluster_order clusters
  /\ clusters ≡ₚ collect_clusters example_data
  /\ (forall i t, top !! i = Some t ->
        clusters !! i = Some (top_onclick t)
        /\ top_badge t = (Z.of_nat i + 1)%Z)
  /\ topClustersGrid (page_after example_data ["number"; "non-zero"] blank_page)
     = top
  /\ topClustersGrid
       (displayResults example_data (sortClusters "points" blank_page))
     = top.
Proof.
  apply (top_three example_data blank_page ["number"; "non-zero"] "points").
  vm_compute. reflexivity.
Defined.

Lemma display_show_or_hide_other m c :
  m <> "non-zero" -> display (show_or_hide m c) = "block".
Proof.
  intros H. apply String.eqb_neq in H. unfold show_or_hide. now rewrite H.
Qed.

(** C5.  On every page that shows a normalized response, whatever the
    modes used before, the non-zero mode puts the cards in the order of
    the points mode (displaying every card of its grid gives the grid of
    the points mode): decreasing points and, for equal points, increasing
    id.  Every cluster keeps its card; a card is hidden exactly when the
    points of its record are zero and displayed otherwise.  Any other mode
    chosen next displays every card again, and gives the page it gives
    without the non-zero mode in between. *)
Theorem non_zero_mode (data : response) (modes : list string) (pg : page)
    (m : string) :
  normalized data = true ->
  let before := page_after data modes pg in
  let grid := clusterGrid (sortClusters "non-zero" before) in
  map (set_display "block") grid = clusterGrid (sortClusters "points" before)
  /\ StronglySorted cluster_order (map onclick grid)
  /\ map onclick grid ≡ₚ collect_clusters data
  /\ Forall (fun c => display c =
               if num_strict_eq (points (onclick c)) (of_Z 0)
               then "none" else "block") grid
  /\ (m <> "non-zero" ->
      Forall (fun c => display c = "block")
        (clusterGrid (sortClusters m (sortClusters "non-zero" before)))
      /\ sortClusters m (sortClusters "non-zero" before)
         = sortClusters m before).
Proof.
  intros Hn before grid.
  pose proof (page_after_shows data modes pg Hn) as Hb. fold before in Hb.
  pose proof (sortClusters_shows data "non-zero" before Hb) as Hz.
  split; [|split; [|split; [|split]]].
  - subst grid. simpl. rewrite map_map.
    rewrite (sort_ext (compare_cards "non-zero") (compare_cards "points"))
      by apply behind_non_zero.
    apply map_ext. intros c. apply set_display_show_or_hide.
  - now apply (sorted_grid_records data).
  - apply Hz.
  - subst grid. simpl. apply Forall_fmap, Forall_forall. intros c Hc.
    rewrite sort_perm in Hc.
    destruct Hb as [_ Hf _]. rewrite Forall_forall in Hf.
    destruct (Hf c Hc) as [_ Hp]. simpl.
    now rewrite (num_strict_eq_compat _ _ (of_Z 0) Hp).
  - intros Hm. split.
    + simpl. apply Forall_fmap, Forall_forall. intros c _.
      now apply display_show_or_hide_other.
    + apply sortClusters_twice, Hb.
Qed.

Lemma non_zero_mode_witness :
  let before := page_after example_data ["number"] blank_page in
  let grid := clusterGrid (sortClusters "non-zero" before) in
  map (set_display "block") grid = clusterGrid (sortClusters "points" before)
  /\ StronglySorted cluster_order (map onclick grid)
  /\ map onclick grid ≡ₚ collect_clusters example_data
  /\ Forall (fun c => display c =
               if num_strict_eq (points (onclick c)) (of_Z 0)
               then "none" else "block") grid
  /\ ("points" <> "non-zero" ->
      Forall (fun c => display c = "block")
        (clusterGrid (sortClusters "points" (sortClusters "non-zero" before)))
      /\ sortClusters "points" (sortClusters "non-zero" before)
         = sortClusters "points" before).
Proof.
  apply (non_zero_mode example_data ["number"] blank_page "points").
  vm_compute. reflexivity.
Defined.

(** C7, as the code has it.  On every page that shows a normalized
    response, whatever the modes used before, sorting with a mode and then
    with a second mode gives the page that sorting with the second mode
    alone gives (with the same mode twice: sorting again changes nothing).
    A sort works on the grid in place: it changes the order of the cards
    and their [display], and nothing else: the cards hold what they held,
    the records behind them are those built from the response, and the top
    grid is as it was. *)
Theorem mode_switch (data : response) (modes : list string) (pg : page)
    (m1 m2 : string) :
  normalized data = true ->
  let p := page_after data modes pg in
  sortClusters m2 (sortClusters m1 p) = sortClusters m2 p
  /\ sortClusters m1 (sortClusters m1 p) = sortClusters m1 p
  /\ map (set_display "") (clusterGrid (sortClusters m1 p))
     ≡ₚ map (set_display "") (clusterGrid p)
  /\ map onclick (clusterGrid (sortClusters m1 p)) ≡ₚ collect_clusters data
  /\ topClustersGrid (sortClusters m1 p) = topClustersGrid p.
Proof.
  intros Hn p.
  pose proof (page_after_shows data modes pg Hn) as Hp. fold p in Hp.
  split; [|split; [|split; [|split]]].
  - apply sortClusters_twice, Hp.
  - apply sortClusters_twice, Hp.
  - apply sortClusters_keeps_cards.
  - apply (sortClusters_shows data m1 p Hp).
  - reflexivity.
Qed.

Lemma mode_switch_witness :
  let p := page_after example_data ["non-zero"] blank_page in
  sortClusters "points" (sortClusters "number" p) = sortClusters "points" p
  /\ sortClusters "number" (sortClusters "number" p) = sortClusters "number" p
  /\ map (set_display "") (clusterGrid (sortClusters "number" p))
     ≡ₚ map (set_display "") (clusterGrid p)
  /\ map onclick (clusterGrid (sortClusters "number" p))
     ≡ₚ collect_clusters example_data
  /\ topClustersGrid (sortClusters "number" p) = topClustersGrid p.
Proof.
  apply (mode_switch example_data ["non-zero"] blank_page "number" "points").
  vm_compute. reflexivity.
Defined.

(** C7, as the claim has it, fails for its second half: the list a sort
    reads is the grid of the page, and the sort re-orders it in place.
    Shown by points the two clusters are in the order 2, 1; after a sort by
    number the same grid is in the order 1, 2. *)
Lemma sortClusters_reorders_grid :
  let p := displayResults rising_data blank_page in
  map cluster_number (clusterGrid p) = ["2"; "1"]
  /\ map cluster_number (clusterGrid (sortClusters "number" p)) = ["1"; "2"]
  /\ clusterGrid (sortClusters "number" p) <> clusterGrid p.
Proof.
  repeat split; try (vm_compute; reflexivity).
  vm_compute. discriminate.
Qed.

(** * Further properties *)

(** ** The clusters of a response *)

Lemma flat_map_length_le {A B : Type} (f : A -> list B) (l : list A) :
  (forall x, (length (f x) <= 1)%nat) ->
  (length (flat_map f l) <= length l)%nat.
Proof.
  intros H. induction l as [|x l IH]; simpl; [lia|].
  rewrite length_app. specialize (H x). lia.
Qed.

(** X1.  The array built by the loop of [displayResults] holds one cluster
    for each [i] from 1 to 20 whose key [Cluster i] has a non-empty string
    in [results], and nothing else: a missing mapping, a missing key, an
    empty string or a key beyond 20 gives no cluster.  The clusters come in
    increasing id, each with the key as its name and the string and its
    parse as its points; there are at most 20. *)
Theorem clusters_of_response (data : response) :
  StronglySorted (fun a b => (id a < id b)%nat) (collect_clusters data)
  /\ (forall i, (exists c, c ∈ collect_clusters data /\ id c = i)
        <-> ((1 <= i <= 20)%nat
             /\ is_Some (result_of data (clusterKey i))))
  /\ (forall c, c ∈ collect_clusters data ->
        name c = clusterKey (id c)
        /\ result_of data (name c) = Some (pointsFormatted c)
        /\ pointsFormatted c <> ""
        /\ points c = parseFloat (pointsFormatted c)
        /\ description c = description_of data (name c))
  /\ (length (collect_clusters data) <= 20)%nat.
Proof.
  split; [apply collect_sorted|]. split; [|split].
  - intros i. split.
    + intros [c [Hc <-]]. apply collect_elem in Hc as [j [s [Hj [E ->]]]].
      simpl. split; [|now rewrite E].
      apply list_elem_of_In, in_seq in Hj. lia.
    + intros [Hi [s E]]. eexists. split.
      * apply collect_elem. exists i, s. split; [|split; [exact E|reflexivity]].
        apply list_elem_of_In, in_seq. lia.
      * reflexivity.
  - intros c Hc. apply collect_elem in Hc as [j [s [Hj [E ->]]]]. simpl.
    repeat split; trivial.
    intros ->. unfold result_of in E.
    destruct (results data) as [r|]; [|discriminate].
    destruct (r !! clusterKey j) as [t|]; [|discriminate].
    destruct (String.eqb t "") eqn:F; [discriminate|].
    injection E as ->. discriminate.
  - unfold collect_clusters.
    etransitivity; [apply flat_map_length_le|now rewrite length_seq].
    intros i. unfold cluster_at. destruct (result_of _ _); simpl; lia.
Qed.

Lemma flat_map_nil {A B : Type} (f : A -> list B) (l : list A) :
  flat_map f l = [] <-> (forall x, x ∈ l -> f x = []).
Proof.
  induction l as [|x l IH]; simpl.
  - split; [intros _ y Hy; now apply elem_of_nil in Hy|trivial].
  - split.
    + intros H. apply app_eq_nil in H as [H1 H2].
      intros y Hy. apply elem_of_cons in Hy as [->|Hy]; [trivial|].
      now apply IH.
    + intros H. rewrite (H x) by now left. simpl.
      apply IH. intros y Hy. apply H. now right.
Qed.

Lemma collect_nil data :
  collect_clusters data = [] <->
  (forall i, (1 <= i <= 20)%nat -> result_of data (clusterKey i) = None).
Proof.
  unfold collect_clusters. rewrite flat_map_nil. split.
  - intros H i Hi.
    assert (i ∈ seq 1 20) as Hin by (apply list_elem_of_In, in_seq; lia).
    specialize (H i Hin). unfold cluster_at in H.
    destruct (result_of data (clusterKey i)); [discriminate|trivial].
  - intros H i Hi. apply list_elem_of_In, in_seq in Hi.
    unfold cluster_at. rewrite H by lia. reflexivity.
Qed.

Lemma sort_nil_iff {A : Type} (cmp : A -> A -> number) (l : list A) :
  sort cmp l = [] <-> l = [].
Proof.
  split; [|intros ->; reflexivity].
  intros H. apply Permutation_nil. rewrite <- H. apply sort_perm.
Qed.

(** X2.  [displayResults] always shows the results section and builds one
    card for each cluster of the response.  Both grids are empty and the
    top section is hidden exactly when no key from [Cluster 1] to
    [Cluster 20] has a non-empty string; as soon as one has, the top
    section is shown.  Nothing of the grids of the page before is kept. *)
Theorem displayResults_empty (data : response) (pg : page) :
  let shown := displayResults data pg in
  let none :=
    forall i, (1 <= i <= 20)%nat -> result_of data (clusterKey i) = None in
  resultsSection_display shown = "block"
  /\ length (clusterGrid shown) = length (collect_clusters data)
  /\ (clusterGrid shown = [] <-> none)
  /\ (topClustersGrid shown = [] <-> none)
  /\ (topClustersSection_display shown = "none" <-> none)
  /\ (topClustersSection_display shown = "block" <-> ~ none)
  /\ clusterGrid shown = clusterGrid (displayResults data blank_page)
  /\ topClustersGrid shown = topClustersGrid (displayResults data blank_page).
Proof.
  intros shown none.
  assert (sorted_clusters data = [] <-> none) as Hs.
  { unfold sorted_clusters. rewrite sort_nil_iff. apply collect_nil. }
  split; [reflexivity|]. split.
  { subst shown. simpl. rewrite length_map.
    now rewrite sorted_clusters_perm. }
  subst shown. simpl. unfold top_of.
  destruct (sorted_clusters data) as [|c l] eqn:E; simpl.
  - repeat split; trivial; try (intros _; now apply Hs);
      try discriminate.
    intros H. destruct H. now apply Hs.
  - assert (~ none) as Hn by (intros H; apply Hs in H; discriminate).
    repeat split; trivial; try discriminate; try (intros H; now destruct Hn).
Qed.

(** ** The cards *)

Lemma sorted_ids_distinct data : NoDup (map id (sorted_clusters data)).
Proof. rewrite sorted_clusters_perm. apply collect_ids_distinct. Qed.

(** X3.  Whatever the response, the top grid is the head of the cluster
    grid as [displayResults] builds it: the card at place [i] of the top
    grid (there are at most three, and as many as the grid has when it has
    fewer) shows the number, name, description and points of the card at
    place [i] of the cluster grid, opens the same record, and carries the
    badge [i + 1]. *)
Theorem top_grid_is_head_of_grid (data : response) (pg : page) (i : nat)
    (t : top_card) :
  topClustersGrid (displayResults data pg) !! i = Some t ->
  (i < 3)%nat
  /\ length (topClustersGrid (displayResults data pg))
     = Nat.min 3 (length (clusterGrid (displayResults data pg)))
  /\ exists c,
       clusterGrid (displayResults data pg) !! i = Some c
       /\ top_onclick t = onclick c
       /\ top_number t = cluster_number c
       /\ top_points t = cluster_points c
       /\ top_name t = cluster_name c
       /\ top_description t = cluster_description c
       /\ top_badge t = (Z.of_nat i + 1)%Z.
Proof.
  simpl. unfold top_of. intros H.
  apply list_lookup_fmap_Some in H as [c [-> Hc]].
  apply lookup_take_Some in Hc as [Hc Hi].
  split; [exact Hi|]. split; [now rewrite !length_map, length_take|].
  exists (make_card c). split; [now apply list_lookup_fmap_Some_2|].
  repeat split. simpl. f_equal.
  apply indexOf_lookup; [apply sorted_ids_distinct|exact Hc].
Qed.

Lemma top_grid_is_head_of_grid_witness :
  (1 < 3)%nat
  /\ length (topClustersGrid (displayResults example_data blank_page))
     = Nat.min 3 (length (clusterGrid (displayResults example_data blank_page)))
  /\ exists c,
       clusterGrid (displayResults example_data blank_page) !! 1%nat = Some c
       /\ id (cluster_of 2 "32.500") = id (onclick c)
       /\ "2" = cluster_number c
       /\ Span "points-high" "32.500" = cluster_points c
       /\ "Cluster 2" = cluster_name c
       /\ "" = cluster_description c
       /\ 2%Z = (Z.of_nat 1 + 1)%Z.
Proof.
  pose proof (top_grid_is_head_of_grid example_data blank_page 1
    {| top_number := "2"; top_points := Span "points-high" "32.500";
       top_name := "Cluster 2"; top_description := "";
       top_onclick := cluster_of 2 "32.500"; top_badge := 2 |}) as H.
  destruct H as [H1 [H2 [c [Hc [E1 [E2 [E3 [E4 [E5 E6]]]]]]]]].
  { vm_compute. reflexivity. }
  split; [exact H1|]. split; [exact H2|].
  exists c. simpl in E1. rewrite <- E1. repeat split; trivial.
Defined.

Lemma strict_eq_not_gt v :
  num_strict_eq v (of_Z 0) = true -> num_gt v (of_Z 0) = false.
Proof.
  unfold num_strict_eq. destruct (num_compare v (of_Z 0)) as [[]|] eqn:E;
    try discriminate. intros _. apply num_gt_false. now right.
Qed.

(** A number that is not above zero is not at or above a positive one. *)
Lemma not_gt_not_ge v k :
  num_gt v (of_Z 0) = false -> num_lt (of_Z 0) (of_Z k) ->
  num_ge v (of_Z k) = false.
Proof.
  intros Hg Hk. destruct (num_ge v (of_Z k)) eqn:G; trivial.
  apply num_ge_le in G.
  assert (num_gt v (of_Z 0) = true); [|congruence].
  apply num_gt_lt. destruct G as [G|G].
  - eapply num_lt_trans; eauto.
  - eapply num_lt_eq; eauto.
Qed.

Lemma zero_rendering s :
  num_gt (parseFloat s) (of_Z 0) = false ->
  formatClusterPoints s = Span "points-zero" "0.000".
Proof.
  intros H. unfold formatClusterPoints.
  rewrite (not_gt_not_ge _ 30 H), (not_gt_not_ge _ 15 H), H;
    trivial; vm_compute; reflexivity.
Qed.

(** X4.  The class of a card and the rendering of its points agree on the
    two ends: the card has the class [highlight] exactly when its points
    are rendered in the high tier, and a card of class [zero] has its
    points rendered as the zero "0.000". *)
Theorem card_class_and_tier (c : cluster) :
  points c = parseFloat (pointsFormatted c) ->
  (className (make_card c) = "cluster-card highlight"
   <-> tier_of (cluster_points (make_card c)) = Some high)
  /\ (className (make_card c) = "cluster-card zero" ->
      cluster_points (make_card c) = Span "points-zero" "0.000").
Proof.
  intros Hp. cbn [className cluster_points make_card]. unfold cardClass.
  rewrite Hp. set (v := parseFloat (pointsFormatted c)).
  destruct (num_strict_eq v (of_Z 0)) eqn:Z.
  - rewrite (zero_rendering _ (strict_eq_not_gt v Z)).
    split; [|reflexivity]. split; intros H; vm_compute in H; discriminate.
  - unfold formatClusterPoints. fold v.
    destruct (num_ge v (of_Z 30)) eqn:G.
    { split; [|intros H; vm_compute in H; discriminate].
      split; reflexivity. }
    split; [|intros H; vm_compute in H; discriminate].
    destruct (num_ge v (of_Z 15));
      [split; intros H; vm_compute in H; discriminate|].
    destruct (num_gt v (of_Z 0)); split; intros H; vm_compute in H;
      discriminate.
Qed.

Lemma card_class_and_tier_witness :
  (className (make_card (cluster_of 4 "31.250")) = "cluster-card highlight"
   <-> tier_of (cluster_points (make_card (cluster_of 4 "31.250"))) = Some high)
  /\ (className (make_card (cluster_of 4 "31.250")) = "cluster-card zero" ->
      cluster_points (make_card (cluster_of 4 "31.250"))
      = Span "points-zero" "0.000").
Proof. apply (card_class_and_tier (cluster_of 4 "31.250")). reflexivity. Defined.

(** X5.  A score that is not greater than zero, be it zero, negative or
    not a number, is rendered as "0.000"; what [sortClusters] reads back
    from the card is then zero, and the non-zero mode hides the card.
    When the score is not zero itself the card does not get the class
    [zero]: it has no class of its own. *)
Theorem not_positive_score (c : cluster) :
  points c = parseFloat (pointsFormatted c) ->
  num_gt (points c) (of_Z 0) = false ->
  cluster_points (make_card c) = Span "points-zero" "0.000"
  /\ num_eq (card_points (make_card c)) (of_Z 0)
  /\ display (show_or_hide "non-zero" (make_card c)) = "none"
  /\ (num_strict_eq (points c) (of_Z 0) = false ->
      className (make_card c) = "cluster-card ").
Proof.
  intros Hp Hg.
  assert (cluster_points (make_card c) = Span "points-zero" "0.000") as E.
  { cbn [cluster_points make_card]. apply zero_rendering. now rewrite <- Hp. }
  assert (card_points (make_card c) = Fin (0 # 1000)) as R.
  { unfold card_points. rewrite E. vm_compute. reflexivity. }
  split; [exact E|]. split; [rewrite R; vm_compute; reflexivity|]. split.
  - unfold show_or_hide. cbn [String.eqb Ascii.eqb Bool.eqb]. rewrite R.
    vm_compute. reflexivity.
  - intros Z. cbn [className make_card]. unfold cardClass. rewrite Z.
    now rewrite (not_gt_not_ge _ 30 Hg) by (vm_compute; reflexivity).
Qed.

Lemma not_positive_score_witness :
  cluster_points (make_card (cluster_of 7 "-3.5")) = Span "points-zero" "0.000"
  /\ num_eq (card_points (make_card (cluster_of 7 "-3.5"))) (of_Z 0)
  /\ display (show_or_hide "non-zero" (make_card (cluster_of 7 "-3.5")))
     = "none"
  /\ (num_strict_eq (points (cluster_of 7 "-3.5")) (of_Z 0) = false ->
      className (make_card (cluster_of 7 "-3.5")) = "cluster-card ").
Proof.
  apply (not_positive_score (cluster_of 7 "-3.5"));
    [reflexivity | vm_compute; reflexivity].
Defined.

(** ** The grid under every response *)

Lemma page_after_numbered data modes pg :
  Forall numbered (clusterGrid (page_after data modes pg))
  /\ map onclick (clusterGrid (page_after data modes pg))
     ≡ₚ collect_clusters data.
Proof.
  unfold page_after.
  assert (Forall numbered (clusterGrid (displayResults data pg))
          /\ map onclick (clusterGrid (displayResults data pg))
             ≡ₚ collect_clusters data) as H.
  { simpl. split.
    - apply Forall_fmap, Forall_forall. intros c Hc.
      rewrite sorted_clusters_perm in Hc.
      apply collect_elem in Hc as [i [s [Hi [_ ->]]]].
      split; simpl; [now apply id_round_trip|].
      apply list_elem_of_In, in_seq in Hi. lia.
    - rewrite map_map. simpl. rewrite map_id. apply sorted_clusters_perm. }
  revert H. generalize (displayResults data pg) as p.
  induction modes as [|m modes IH]; intros p H; simpl; [exact H|].
  apply IH. destruct H as [H1 H2]. split.
  - simpl. apply Forall_fmap. rewrite sort_perm.
    eapply Forall_impl; [exact H1|]. intros c [Hc Hr]. split; simpl.
    + now rewrite card_id_show_or_hide, onclick_show_or_hide.
    + now rewrite onclick_show_or_hide.
  - simpl. rewrite map_map.
    rewrite (map_ext _ onclick) by (intros; apply onclick_show_or_hide).
    now rewrite sort_perm.
Qed.

Lemma numbered_pairs l :
  Forall numbered l -> NoDup (map (fun c => id (onclick c)) l) ->
  StronglySorted
    (fun a b => card_id a <> NaN /\ card_id b <> NaN /\ card_id a <> card_id b)
    l.
Proof.
  induction l as [|x l IH]; intros Hn Hd; [constructor|].
  apply Forall_cons in Hn as [Hx Hn]. simpl in Hd.
  apply NoDup_cons in Hd as [Hnx Hd]. constructor; [auto|].
  rewrite Forall_forall in *. intros y Hy.
  destruct Hx as [Ex _]. destruct (Hn y Hy) as [Ey _].
  rewrite Ex, Ey. repeat split; try discriminate.
  intros E. apply of_nat_inj in E. apply Hnx. rewrite E.
  now apply (list_elem_of_fmap_2 (fun c => id (onclick c))).
Qed.

(** The comparator [aId - bId] on the page the code builds: the records
    come out in the order of the loop, by increasing id. *)
Lemma sort_by_number_records data modes pg :
  let grid :=
    clusterGrid (sortClusters "number" (page_after data modes pg)) in
  map onclick grid = collect_clusters data
  /\ StronglySorted (fun a b => (id a < id b)%nat) (map onclick grid)
  /\ Forall (fun c => card_id c = of_nat (id (onclick c))
                      /\ display c = "block") grid.
Proof.
  intros grid.
  destruct (page_after_numbered data modes pg) as [Hn Hp].
  set (before := clusterGrid (page_after data modes pg)) in *.
  assert (StronglySorted number_order (sort (compare_cards "number") before))
    as Hs.
  { apply (sort_sorted (compare_cards "number") number_order
             (fun a b => card_id a <> NaN /\ card_id b <> NaN
                         /\ card_id a <> card_id b)).
    - intros a b [Ha [Hb Hne]]. unfold compare_cards; simpl.
      destruct (behind _) eqn:E.
      + now apply behind_sub in E.
      + apply behind_sub_false in E as [E|E]; trivial.
        destruct (ids_ordered a b Ha Hb Hne E).
    - apply numbered_pairs; [exact Hn|].
      rewrite <- (map_map onclick id), Hp. apply collect_ids_distinct. }
  assert (Forall numbered (sort (compare_cards "number") before)) as Hn'
    by now rewrite sort_perm.
  assert (StronglySorted (fun a b => (id a < id b)%nat) (map onclick grid))
    as Hsorted.
  { subst grid. simpl. rewrite map_map.
    eapply StronglySorted_map_in; [|exact Hs].
    intros a b Ha Hb H. rewrite ?onclick_show_or_hide. cbn.
    rewrite Forall_forall in Hn'.
    destruct (Hn' a Ha) as [Ea _]. destruct (Hn' b Hb) as [Eb _].
    unfold number_order in H. rewrite Ea, Eb in H. now apply of_nat_lt. }
  split; [|split; [exact Hsorted|]].
  - apply (StronglySorted_unique_strong (fun a b => (id a < id b)%nat)).
    + intros x y _ _ H1 H2. lia.
    + exact Hsorted.
    + apply collect_sorted.
    + subst grid. simpl. rewrite map_map.
      rewrite (map_ext _ onclick) by (intros; apply onclick_show_or_hide).
      now rewrite sort_perm.
  - subst grid. simpl. apply Forall_fmap.
    eapply Forall_impl; [exact Hn'|]. intros c [Hc Hr].
    cbn. split; trivial.
Qed.

(** C10.  Run from the click of a sort button with a mode that is none of
    "number", "points" and "non-zero", on the page the code has built from
    any response and after any sorts, [sortClusters] does what the number
    mode does: the grid shows the clusters of the response, each once, by
    strictly increasing id, in the order the loop built them; the number
    read from every card is the id of its cluster, and every card is
    displayed; no card
    is lost or added. *)
Theorem sortClusters_other_mode (m : string) (data : response)
    (modes : list string) (pg : page) :
  m <> "number" -> m <> "points" -> m <> "non-zero" ->
  let before := page_after data modes pg in
  let grid := clusterGrid (sortClusters m before) in
  sortClusters m before = sortClusters "number" before
  /\ map onclick grid = collect_clusters data
  /\ StronglySorted (fun a b => (id a < id b)%nat) (map onclick grid)
  /\ Forall (fun c => card_id c = of_nat (id (onclick c))
                      /\ display c = "block") grid
  /\ map (set_display "") grid
     ≡ₚ map (set_display "") (clusterGrid before).
Proof.
  intros H1 H2 H3 before grid.
  pose proof (sortClusters_default_branch m before H1 H2 H3) as E.
  split; [exact E|].
  destruct (sort_by_number_records data modes pg) as [Ha [Hb Hc]].
  subst grid. rewrite E. fold before in Ha, Hb, Hc.
  split; [exact Ha|split; [exact Hb|split; [exact Hc|]]].
  apply sortClusters_keeps_cards.
Qed.

Lemma sortClusters_other_mode_witness :
  let before := page_after rising_data ["points"] blank_page in
  let grid := clusterGrid (sortClusters "name" before) in
  sortClusters "name" before = sortClusters "number" before
  /\ map onclick grid = collect_clusters rising_data
  /\ StronglySorted (fun a b => (id a < id b)%nat) (map onclick grid)
  /\ Forall (fun c => card_id c = of_nat (id (onclick c))
                      /\ display c = "block") grid
  /\ map (set_display "") grid
     ≡ₚ map (set_display "") (clusterGrid before).
Proof.
  apply (sortClusters_other_mode "name" rising_data ["points"] blank_page);
    discriminate.
Defined.

(** On the response of 10.000 for cluster 1 and 20.000 for cluster 2 the
    grid shows 2 before 1; an unknown mode puts 1 before 2. *)
Example other_mode_reorders :
  map cluster_number
    (clusterGrid (page_after rising_data ["points"] blank_page)) = ["2"; "1"]
  /\ map cluster_number
       (clusterGrid (sortClusters "name"
                       (page_after rising_data ["points"] blank_page)))
     = ["1"; "2"].
Proof. split; vm_compute; reflexivity. Qed.

(** X6.  Whatever the response and whatever the modes used before, the
    number mode shows the clusters in the order the loop built them: ids
    strictly increasing, all between 1 and 20, every cluster of the
    response once; each card carries its id as its number and is
    displayed. *)
Theorem number_mode (data : response) (modes : list string) (pg : page) :
  let grid :=
    clusterGrid (sortClusters "number" (page_after data modes pg)) in
  map onclick grid = collect_clusters data
  /\ StronglySorted (fun a b => (id a < id b)%nat) (map onclick grid)
  /\ Forall (fun c => card_id c = of_nat (id (onclick c))
                      /\ (1 <= id (onclick c) <= 20)%nat
                      /\ display c = "block") grid.
Proof.
  intros grid.
  destruct (page_after_numbered data modes pg) as [Hn Hp].
  set (before := clusterGrid (page_after data modes pg)) in *.
  assert (StronglySorted number_order (sort (compare_cards "number") before))
    as Hs.
  { apply (sort_sorted (compare_cards "number") number_order
             (fun a b => card_id a <> NaN /\ card_id b <> NaN
                         /\ card_id a <> card_id b)).
    - intros a b [Ha [Hb Hne]]. unfold compare_cards; simpl.
      destruct (behind _) eqn:E.
      + now apply behind_sub in E.
      + apply behind_sub_false in E as [E|E]; trivial.
        destruct (ids_ordered a b Ha Hb Hne E).
    - apply numbered_pairs; [exact Hn|].
      rewrite <- (map_map onclick id), Hp. apply collect_ids_distinct. }
  assert (Forall numbered (sort (compare_cards "number") before)) as Hn'
    by now rewrite sort_perm.
  assert (StronglySorted (fun a b => (id a < id b)%nat) (map onclick grid))
    as Hsorted.
  { subst grid. simpl. rewrite map_map.
    eapply StronglySorted_map_in; [|exact Hs].
    intros a b Ha Hb H. rewrite ?onclick_show_or_hide. cbn.
    rewrite Forall_forall in Hn'.
    destruct (Hn' a Ha) as [Ea _]. destruct (Hn' b Hb) as [Eb _].
    unfold number_order in H. rewrite Ea, Eb in H. now apply of_nat_lt. }
  split; [|split; [exact Hsorted|]].
  - apply (StronglySorted_unique_strong (fun a b => (id a < id b)%nat)).
    + intros x y _ _ H1 H2. lia.
    + exact Hsorted.
    + apply collect_sorted.
    + subst grid. simpl. rewrite map_map.
      rewrite (map_ext _ onclick) by (intros; apply onclick_show_or_hide).
      now rewrite sort_perm.
  - subst grid. simpl. apply Forall_fmap.
    eapply Forall_impl; [exact Hn'|]. intros c [Hc Hr].
    cbn. repeat split; trivial; lia.
Qed.

(** X7.  On a page that shows a normalized response, after any sorts, every
    card can be read back: the number parsed from its text is the id of
    its record and the points parsed from its text are the points of its
    record, themselves the parse of the score received. *)
Theorem cards_read_back (data : response) (modes : list string) (pg : page) :
  normalized data = true ->
  Forall (fun c => card_id c = of_nat (id (onclick c))
                   /\ num_eq (card_points c) (points (onclick c))
                   /\ points (onclick c)
                      = parseFloat (pointsFormatted (onclick c)))
         (clusterGrid (page_after data modes pg)).
Proof.
  intros Hn. destruct (page_after_shows data modes pg Hn) as [_ Hf Hr].
  apply Forall_forall. intros c Hc. rewrite Forall_forall in Hf.
  destruct (Hf c Hc) as [H1 H2]. repeat split; trivial.
  assert (onclick c ∈ collect_clusters data) as Ho.
  { rewrite <- Hr. now apply list_elem_of_fmap_2. }
  apply collect_elem in Ho as [i [s [_ [_ ->]]]]. reflexivity.
Qed.

Lemma cards_read_back_witness :
  Forall (fun c => card_id c = of_nat (id (onclick c))
                   /\ num_eq (card_points c) (points (onclick c))
                   /\ points (onclick c)
                      = parseFloat (pointsFormatted (onclick c)))
         (clusterGrid (page_after example_data ["non-zero"; "number"]
                         blank_page)).
Proof.
  apply (cards_read_back example_data ["non-zero"; "number"] blank_page).
  vm_compute. reflexivity.
Defined.

(** X8.  On every page and in every mode, [sortClusters] keeps the cards of
    the grid, each once: it changes their order and their [display], which
    becomes [block] or, in the non-zero mode only, [none]; the rest of the
    page is left as it is. *)
Theorem sortClusters_frame (m : string) (pg : page) :
  let after := sortClusters m pg in
  map (set_display "") (clusterGrid after)
    ≡ₚ map (set_display "") (clusterGrid pg)
  /\ length (clusterGrid after) = length (clusterGrid pg)
  /\ Forall (fun c => display c = "block"
                      \/ (m = "non-zero" /\ display c = "none"
                          /\ num_eq (card_points c) (of_Z 0)))
            (clusterGrid after)
  /\ topClustersGrid after = topClustersGrid pg
  /\ topClustersSection_display after = topClustersSection_display pg
  /\ aggregateDisplay after = aggregateDisplay pg
  /\ resultsSection_display after = resultsSection_display pg.
Proof.
  intros after. split; [apply sortClusters_keeps_cards|].
  split; [subst after; simpl; rewrite length_map; apply Permutation_length,
            sort_perm|].
  split; [|repeat split].
  subst after. simpl. apply Forall_fmap, Forall_forall. intros c _. simpl.
  unfold show_or_hide.
  destruct (String.eqb m "non-zero") eqn:E; [|now left].
  apply String.eqb_eq in E.
  destruct (num_strict_eq (card_points c) (of_Z 0)) eqn:Z; [|now left].
  right. repeat split; trivial.
  change (num_eq (card_points c) (of_Z 0)).
  unfold num_strict_eq in Z. unfold num_eq.
  destruct (num_compare (card_points c) (of_Z 0)) as [[]|]; congruence.
Qed.

#[local] Instance points_le_desc_trans : Transitive points_le_desc.
Proof. intros a b c H1 H2. exact (num_le_trans _ _ _ H2 H1). Qed.

Lemma sort_points_desc m l :
  m = "points" \/ m = "non-zero" ->
  Forall (fun c => card_points c <> NaN) l ->
  StronglySorted points_le_desc (sort (compare_cards m) l).
Proof.
  intros Hm Hl.
  apply (sort_sorted (compare_cards m) points_le_desc
           (fun a b => card_points a <> NaN /\ card_points b <> NaN));
    [|now apply Forall_pairs].
  intros a b [Ha Hb].
  assert (behind (compare_cards m a b) = behind (compare_cards "points" a b))
    as -> by (destruct Hm as [-> | ->]; [reflexivity|apply behind_non_zero]).
  unfold compare_cards, points_le_desc; simpl.
  destruct (behind _) eqn:E.
  - apply behind_sub in E. now left.
  - now apply behind_sub_false in E.
Qed.

Lemma readable_points l :
  forallb (fun c => negb (is_nan (card_points c))) l = true ->
  Forall (fun c => card_points c <> NaN) l.
Proof.
  rewrite forallb_forall, Forall_forall. intros H c Hc.
  apply not_nan, H. now apply list_elem_of_In.
Qed.

(** X9.  On a grid whose cards all carry points that read as a number, the
    points mode and the non-zero mode leave the cards with the points read
    from them never increasing from one card to any later one. *)
Theorem points_modes_descending (m : string) (pg : page) :
  m = "points" \/ m = "non-zero" ->
  forallb (fun c => negb (is_nan (card_points c))) (clusterGrid pg) = true ->
  StronglySorted points_le_desc (clusterGrid (sortClusters m pg)).
Proof.
  intros Hm Hr. simpl.
  eapply StronglySorted_map_in;
    [|apply (sort_points_desc m), readable_points; trivial].
  intros a b _ _. unfold points_le_desc.
  now rewrite !card_points_show_or_hide.
Qed.

Lemma points_modes_descending_witness :
  StronglySorted points_le_desc
    (clusterGrid (sortClusters "non-zero"
       (sortClusters "number" (displayResults unparsed_data blank_page)))).
Proof.
  apply (points_modes_descending "non-zero"); [now right|].
  vm_compute. reflexivity.
Defined.

(** X10.  Under the same condition, the non-zero mode leaves the hidden
    cards at the end of the grid: no card after a hidden card is
    displayed. *)
Theorem non_zero_hidden_last (pg : page) :
  forallb (fun c => negb (is_nan (card_points c))) (clusterGrid pg) = true ->
  StronglySorted (fun a b => display a = "none" -> display b = "none")
    (clusterGrid (sortClusters "non-zero" pg)).
Proof.
  intros Hr. simpl.
  eapply StronglySorted_map_in;
    [|apply (sort_points_desc "non-zero"), readable_points; auto].
  intros a b _ _ Hab. unfold show_or_hide; simpl.
  destruct (num_strict_eq (card_points a) (of_Z 0)) eqn:Za; [|discriminate].
  intros _.
  destruct (num_strict_eq (card_points b) (of_Z 0)) eqn:Zb; [reflexivity|].
  exfalso. unfold points_le_desc in Hab.
  destruct (card_points_nonneg b) as [E|[q [E Hq]]];
    [rewrite E in Hab; destruct Hab; discriminate|].
  rewrite E in *. clear E.
  destruct (card_points a) as [| | |p]; try discriminate;
    try (destruct Hab; discriminate).
  unfold num_strict_eq, num_le, num_lt, num_eq, of_Z in *; simpl in *.
  destruct (Qcompare_cases p (inject_Z 0)) as [[F H]|[[F H]|[F H]]];
    rewrite F in Za; try discriminate.
  destruct (Qcompare_cases q (inject_Z 0)) as [[F' H']|[[F' H']|[F' H']]];
    rewrite F' in Zb; try discriminate; unfold inject_Z in *; try lra.
  destruct Hab as [Hab|Hab]; qcmp; lra.
Qed.

Lemma non_zero_hidden_last_witness :
  StronglySorted (fun a b => display a = "none" -> display b = "none")
    (clusterGrid (sortClusters "non-zero"
       (sortClusters "number" (displayResults example_data blank_page)))).
Proof.
  apply non_zero_hidden_last. vm_compute. reflexivity.
Defined.

(** ** The modes in sequence *)

Lemma sorts_then_sort m modes p :
  grid_ok (clusterGrid p) ->
  sortClusters m (fold_left (fun q k => sortClusters k q) modes p)
  = sortClusters m p.
Proof.
  revert p. induction modes as [|k modes IH]; intros p H; simpl; [trivial|].
  rewrite IH by now apply sortClusters_ok. now apply sortClusters_twice.
Qed.

(** X11.  On a page that shows a normalized response, only the last mode
    counts: after any series of sorts that ends with the mode [m], the
    page is the one that [m] alone gives right after [displayResults]. *)
Theorem last_mode_only (data : response) (modes : list string) (m : string)
    (pg : page) :
  normalized data = true ->
  page_after data (modes ++ [m]) pg = page_after data [m] pg.
Proof.
  intros Hn. unfold page_after. rewrite fold_left_app. simpl.
  apply sorts_then_sort. now apply displayResults_shows.
Qed.

Lemma last_mode_only_witness :
  page_after example_data (["number"; "non-zero"; "name"] ++ ["points"])
    blank_page
  = page_after example_data ["points"] blank_page.
Proof.
  apply (last_mode_only example_data ["number"; "non-zero"; "name"] "points").
  vm_compute. reflexivity.
Defined.

Lemma cluster_order_points a b :
  faithful (make_card a) -> faithful (make_card b) ->
  cluster_order a b -> points_order (make_card a) (make_card b).
Proof.
  intros [Ia Pa] [Ib Pb] [H|[H H']]; simpl in *.
  - left. eapply num_eq_lt; [exact Pb|].
    eapply num_lt_eq; [exact H|now apply num_eq_sym].
  - right. split.
    + eapply num_eq_trans; [exact Pa|].
      eapply num_eq_trans; [exact H|now apply num_eq_sym].
    + rewrite Ia, Ib. now apply of_nat_lt.
Qed.

(** X12.  On a page that shows a normalized response, the points mode
    brings back the order of the first display: after any series of sorts,
    the grid is the grid [displayResults] built, every card displayed. *)
Theorem points_mode_restores (data : response) (modes : list string)
    (pg : page) :
  normalized data = true ->
  clusterGrid (sortClusters "points" (page_after data modes pg))
  = map (set_display "block") (clusterGrid (displayResults data pg)).
Proof.
  intros Hn.
  pose proof (displayResults_shows data pg Hn) as Hs.
  unfold page_after. rewrite sorts_then_sort by apply Hs.
  cbn [clusterGrid sortClusters].
  rewrite (map_ext (show_or_hide "points") (set_display "block"))
    by reflexivity.
  f_equal.
  apply (StronglySorted_unique_strong (order_of "points")).
  - intros x y _ _ H1 H2. destruct (order_of_asym "points" x y H1 H2).
  - apply sort_cards_sorted, Hs.
  - simpl. eapply StronglySorted_map_in;
      [|apply sorted_clusters_sorted, normalized_parsed, Hn].
    intros a b Ha Hb. apply cluster_order_points;
      apply (make_card_faithful data); trivial;
      now rewrite <- sorted_clusters_perm.
  - apply sort_perm.
Qed.

Lemma points_mode_restores_witness :
  clusterGrid (sortClusters "points"
                 (page_after example_data ["number"; "non-zero"] blank_page))
  = map (set_display "block")
        (clusterGrid (displayResults example_data blank_page)).
Proof.
  apply (points_mode_restores example_data ["number"; "non-zero"] blank_page).
  vm_compute. reflexivity.
Defined.

(** ** The tiers in order *)

Lemma tier_rank_eq s :
  tier_rank (tier_of (formatClusterPoints s))
  = if num_ge (parseFloat s) (of_Z 30) then 3%nat
    else if num_ge (parseFloat s) (of_Z 15) then 2%nat
    else if num_gt (parseFloat s) (of_Z 0) then 1%nat else 0%nat.
Proof.
  unfold formatClusterPoints.
  destruct (num_ge _ (of_Z 30)); [reflexivity|].
  destruct (num_ge _ (of_Z 15)); [reflexivity|].
  destruct (num_gt _ (of_Z 0)); reflexivity.
Qed.

Lemma num_ge_mono v w k :
  num_le v w -> num_ge v k = true -> num_ge w k = true.
Proof.
  intros H G. apply num_ge_le in G. apply num_ge_le.
  eapply num_le_trans; eauto.
Qed.

Lemma num_gt_mono v w k :
  num_le v w -> num_gt v k = true -> num_gt w k = true.
Proof.
  intros H G. apply num_gt_lt in G. apply num_gt_lt. destruct H as [H|H].
  - eapply num_lt_trans; eauto.
  - eapply num_lt_eq; eauto.
Qed.

(** X13.  The tier follows the score: of two scores that parse to numbers,
    the one that is not smaller never gets a lower tier (zero below low
    below medium below high). *)
Theorem tier_monotone (s t : string) :
  num_le (parseFloat s) (parseFloat t) ->
  (tier_rank (tier_of (formatClusterPoints s))
   <= tier_rank (tier_of (formatClusterPoints t)))%nat.
Proof.
  intros H. rewrite !tier_rank_eq.
  pose proof (num_ge_mono _ _ (of_Z 30) H) as M30.
  pose proof (num_ge_mono _ _ (of_Z 15) H) as M15.
  pose proof (num_gt_mono _ _ (of_Z 0) H) as M0.
  destruct (num_ge (parseFloat s) (of_Z 30)),
           (num_ge (parseFloat s) (of_Z 15)),
           (num_gt (parseFloat s) (of_Z 0)),
           (num_ge (parseFloat t) (of_Z 30)),
           (num_ge (parseFloat t) (of_Z 15)),
           (num_gt (parseFloat t) (of_Z 0));
    try lia;
    first [ discriminate (M30 eq_refl) | discriminate (M15 eq_refl)
          | discriminate (M0 eq_refl) ].
Qed.

Lemma tier_monotone_witness :
  (tier_rank (tier_of (formatClusterPoints "14.999"))
   <= tier_rank (tier_of (formatClusterPoints "15")))%nat.
Proof.
  apply (tier_monotone "14.999" "15"). left. vm_compute. reflexivity.
Defined.

(** ** The label of a subject *)

(** [replace('_', ' ')] with a string pattern replaces the first
    occurrence only. *)
Lemma replace_underscore_first (a b : string) :
  no_underscore a = true ->
  replace_underscore (a +:+ "_" +:+ b) = a +:+ " " +:+ b
  /\ replace_underscore a = a.
Proof.
  intros H. induction a as [|c a IH]; simpl in *; [split; reflexivity|].
  apply andb_true_iff in H as [Hc Ha].
  destruct (code c =? 95)%nat; [discriminate|].
  destruct (IH Ha) as [-> ->]. split; reflexivity.
Qed.

(** X14.  When the response has an aggregate that is truthy,
    [displayResults] writes the aggregate line anew, whatever the page
    showed: the aggregate over 84, then the top subjects in the order
    received, each with its points and its name, in which the first
    underscore only has become a space ([a_b] with no underscore in [a]
    is shown as [a b], any later underscore kept) and a name with no
    underscore is shown whole. *)
Theorem aggregate_line (data : response) (a : number) (pg : page) :
  aggregate_points data = Some a -> num_truthy a = true ->
  exists v,
    aggregateDisplay (displayResults data pg) = Some v
    /\ agg_points v = a
    /\ agg_out_of v = 84%Z
    /\ length (agg_subjects v) = length (top_7_subjects data)
    /\ (forall i s, top_7_subjects data !! i = Some s ->
          exists label,
            agg_subjects v !! i = Some (label, s_points s)
            /\ (no_underscore (s_subject s) = true -> label = s_subject s)
            /\ (forall x y, s_subject s = x +:+ "_" +:+ y ->
                  no_underscore x = true -> label = x +:+ " " +:+ y)).
Proof.
  intros Ha Ht. exists (make_aggregate data a).
  split; [|split; [reflexivity|split; [reflexivity|split]]].
  - cbn [displayResults aggregateDisplay]. now rewrite Ha, Ht.
  - cbn [make_aggregate agg_subjects]. apply length_map.
  - intros i s Hs. exists (replace_underscore (s_subject s)).
    cbn [make_aggregate agg_subjects].
    split; [|split].
    + rewrite list_lookup_fmap, Hs. reflexivity.
    + intros H. apply (replace_underscore_first _ "" H).
    + intros x y E H. rewrite E. apply (replace_underscore_first _ _ H).
Qed.

Lemma aggregate_line_witness :
  exists v,
    aggregateDisplay (displayResults aggregate_data blank_page) = Some v
    /\ agg_points v = of_Z 60
    /\ agg_out_of v = 84%Z
    /\ length (agg_subjects v) = length (top_7_subjects aggregate_data)
    /\ (forall i s, top_7_subjects aggregate_data !! i = Some s ->
          exists label,
            agg_subjects v !! i = Some (label, s_points s)
            /\ (no_underscore (s_subject s) = true -> label = s_subject s)
            /\ (forall x y, s_subject s = x +:+ "_" +:+ y ->
                  no_underscore x = true -> label = x +:+ " " +:+ y)).
Proof.
  apply (aggregate_line aggregate_data (of_Z 60) blank_page); reflexivity.
Defined.

(** The line of the example: the first underscore of
    [home_science_paper] is a space, the second is kept. *)
Example aggregate_line_example :
  aggregateDisplay (displayResults aggregate_data blank_page)
  = Some {| agg_points := of_Z 60; agg_out_of := 84;
            agg_subjects := [ ("home science_paper", 12%Z);
                              ("mathematics", 11%Z) ] |}.
Proof. vm_compute. reflexivity. Qed.

(** ** The grades of the form *)

Lemma upper_not_lower c :
  negb ((97 <=? code (upper c))%nat && (code (upper c) <=? 122)%nat) = true.
Proof. destruct c as [[] [] [] [] [] [] [] []]; reflexivity. Qed.

Lemma toUpperCase_no_lower s : no_lower (toUpperCase s) = true.
Proof.
  induction s as [|c s IH]; cbn [toUpperCase no_lower]; [reflexivity|].
  now rewrite upper_not_lower, IH.
Qed.

Lemma toUpperCase_empty s : toUpperCase s = "" -> s = "".
Proof. destruct s; [trivial|discriminate]. Qed.

Lemma collect_grades_snoc es e :
  collect_grades (es ++ [e]) = add_grade (collect_grades es) e.
Proof. unfold collect_grades. now rewrite fold_left_app. Qed.

(** The grade under a key is the upper case of the last value entered
    under it. *)
Lemma collect_grades_lookup es k u :
  collect_grades es !! k = Some u <->
  exists es1 v es2,
    es = es1 ++ (k, v) :: es2 /\ entered v = true /\ u = toUpperCase v
    /\ Forall (fun e => fst e = k -> entered (snd e) = false) es2.
Proof.
  revert u. induction es as [|[k' v'] es IH] using rev_ind; intros u.
  - split; [intros H; unfold collect_grades in H; simpl in H;
            rewrite lookup_empty in H; discriminate|].
    intros (es1 & v & es2 & H & _). now destruct es1.
  - rewrite collect_grades_snoc. unfold add_grade; simpl.
    assert (forall es1 v es2,
              es ++ [(k', v')] = es1 ++ (k, v) :: es2 ->
              (es2 = [] /\ es = es1 /\ k' = k /\ v' = v)
              \/ exists es2', es2 = es2' ++ [(k', v')]
                              /\ es = es1 ++ (k, v) :: es2') as Hsplit.
    { intros es1 v es2 H. destruct es2 as [|x es2 _] using rev_ind.
      - apply app_inj_tail in H as [-> [= -> ->]]. now left.
      - right. exists es2.
        rewrite app_comm_cons, app_assoc in H.
        apply app_inj_tail in H as [-> <-]. split; reflexivity. }
    destruct (entered v') eqn:E.
    + destruct (decide (k' = k)) as [->|Hne].
      * rewrite lookup_insert_eq. split.
        -- intros [= <-]. exists es, v', []. repeat split; trivial.
        -- intros (es1 & v & es2 & H & Hv & -> & Hall).
           destruct (Hsplit _ _ _ H) as [(_ & _ & _ & ->)|(es2' & -> & _)];
             [reflexivity|].
           apply Forall_app in Hall as [_ Hall].
           apply Forall_cons in Hall as [Hall _].
           simpl in Hall. rewrite E in Hall. discriminate (Hall eq_refl).
      * rewrite lookup_insert_ne by trivial. rewrite IH. split.
        -- intros (es1 & v & es2 & -> & Hv & -> & Hall).
           exists es1, v, (es2 ++ [(k', v')]). repeat split; trivial.
           ++ now rewrite <- app_assoc.
           ++ apply Forall_app. split; [trivial|].
              constructor; [|constructor]. simpl. congruence.
        -- intros (es1 & v & es2 & H & Hv & -> & Hall).
           destruct (Hsplit _ _ _ H) as [(_ & _ & Hk & _)|(es2' & -> & ->)];
             [congruence|].
           apply Forall_app in Hall as [Hall _]. eauto 10.
    + rewrite IH. split.
      * intros (es1 & v & es2 & -> & Hv & -> & Hall).
        exists es1, v, (es2 ++ [(k', v')]). repeat split; trivial.
        -- now rewrite <- app_assoc.
        -- apply Forall_app. split; [trivial|].
           constructor; [|constructor]. simpl. trivial.
      * intros (es1 & v & es2 & H & Hv & -> & Hall).
        destruct (Hsplit _ _ _ H) as [(_ & _ & _ & ->)|(es2' & -> & ->)];
          [congruence|].
        apply Forall_app in Hall as [Hall _]. eauto 10.
Qed.

Lemma entered_not_empty v : entered v = true -> toUpperCase v <> "".
Proof.
  intros H E. apply toUpperCase_empty in E. subst v. discriminate.
Qed.

(** A grade is there for a key exactly when a value was entered under
    it. *)
Lemma no_grade_false es k :
  no_grade (collect_grades es) k = false <->
  exists v, (k, v) ∈ es /\ entered v = true.
Proof.
  unfold no_grade. split.
  - destruct (collect_grades es !! k) as [u|] eqn:E; [|discriminate].
    intros _. apply collect_grades_lookup in E
      as (es1 & v & es2 & -> & Hv & _).
    exists v. split; [|trivial]. apply elem_of_app. right. now left.
  - intros [v [Hin Hv]].
    assert (exists u, collect_grades es !! k = Some u /\ u <> "")
      as [u [-> Hu]].
    { revert Hin. induction es as [|[k' v'] es IH] using rev_ind;
        intros Hin; [now apply elem_of_nil in Hin|].
      rewrite collect_grades_snoc. unfold add_grade; simpl.
      apply elem_of_app in Hin as [Hin|Hin].
      - destruct (IH Hin) as [u [Hu Hne]].
        destruct (entered v') eqn:E; [|eauto].
        destruct (decide (k' = k)) as [->|Hk].
        + rewrite lookup_insert_eq. eexists. split; [reflexivity|].
          now apply entered_not_empty.
        + rewrite lookup_insert_ne by trivial. eauto.
      - apply list_elem_of_singleton in Hin. injection Hin as <- <-.
        rewrite Hv, lookup_insert_eq. eexists. split; [reflexivity|].
        now apply entered_not_empty. }
    apply String.eqb_neq. exact Hu.
Qed.

(** X15.  A submission is posted exactly when a value has been entered (not
    empty, not the placeholder [Select Grade]) under the name
    [mathematics] and one under the name [english].  Otherwise nothing is
    posted, the document is left as it is, spinner included, and the one
    alert asks for the two grades. *)
Theorem posted_when_both_grades (o : outcome) (doc : document) :
  let es := formData (controls doc) in
  let both :=
    (exists v, ("mathematics", v) ∈ es /\ entered v = true)
    /\ (exists v, ("english", v) ∈ es /\ entered v = true) in
  (both -> sub_posted (onSubmit o doc) = Some (collect_grades es))
  /\ (~ both ->
      sub_posted (onSubmit o doc) = None
      /\ sub_document (onSubmit o doc) = doc
      /\ sub_alert (onSubmit o doc)
         = Some "Please enter grades for at least Mathematics and English.").
Proof.
  intros es both. unfold onSubmit. fold es.
  destruct (no_grade (collect_grades es) "mathematics") eqn:M;
  destruct (no_grade (collect_grades es) "english") eqn:E; simpl.
  4: { split; [|intros H; destruct H; split; now apply no_grade_false].
       intros _. now destruct (handle_outcome o _). }
  all: split; [|now intros _].
  all: intros [Hm He]; apply no_grade_false in Hm, He; congruence.
Qed.

(** X16.  Every grade posted is the upper case of a value entered in the
    form under its key, the last one entered when the key occurs several
    times; it has no lower-case letter, is not empty and is not the
    placeholder [Select Grade]. *)
Theorem posted_grades (o : outcome) (doc : document)
    (grades : gmap string string) (k u : string) :
  sub_posted (onSubmit o doc) = Some grades ->
  grades !! k = Some u ->
  (exists es1 v es2,
     formData (controls doc) = es1 ++ (k, v) :: es2
     /\ entered v = true /\ u = toUpperCase v
     /\ Forall (fun e => fst e = k -> entered (snd e) = false) es2)
  /\ no_lower u = true /\ u <> "" /\ u <> "Select Grade".
Proof.
  intros Hp Hu.
  assert (grades = collect_grades (formData (controls doc))) as ->.
  { unfold onSubmit in Hp. destruct (_ || _); [discriminate|].
    destruct (handle_outcome o _). simpl in Hp. congruence. }
  apply collect_grades_lookup in Hu as (es1 & v & es2 & E & Hv & -> & Hall).
  split; [eauto 10|].
  split; [apply toUpperCase_no_lower|].
  split; [now apply entered_not_empty|].
  intros H. pose proof (toUpperCase_no_lower v) as L. rewrite H in L.
  discriminate.
Qed.

Lemma posted_when_both_grades_witness :
  sub_posted (onSubmit (Failed "offline") (blank_document typed_controls))
  = Some (collect_grades (formData typed_controls)).
Proof.
  apply (posted_when_both_grades (Failed "offline")
           (blank_document typed_controls)).
  split; [exists "a-" | exists "b+"]; (split; [|reflexivity]);
    apply list_elem_of_In; vm_compute; auto.
Defined.

Lemma posted_grades_witness :
  (exists es1 v es2,
     formData (controls (blank_document typed_controls))
     = es1 ++ ("english", v) :: es2
     /\ entered v = true /\ "C" = toUpperCase v
     /\ Forall (fun e => fst e = "english" -> entered (snd e) = false) es2)
  /\ no_lower "C" = true /\ "C" <> "" /\ "C" <> "Select Grade".
Proof.
  apply (posted_grades (Replied example_reply) (blank_document typed_controls)
           (collect_grades (formData typed_controls)) "english" "C");
    vm_compute; reflexivity.
Defined.

(** ** What the actions keep *)

Lemma set_field_frame f v cs :
  map ctl_frame (set_field f v cs) = map ctl_frame cs.
Proof.
  induction cs as [|c cs IH]; simpl; [reflexivity|].
  destruct (String.eqb (ctl_id c) f); simpl; [reflexivity|now rewrite IH].
Qed.

Lemma loadSampleData_frame doc :
  map ctl_frame (controls (loadSampleData doc)) = map ctl_frame (controls doc).
Proof.
  cbn [controls loadSampleData].
  generalize (controls doc) as cs. generalize sampleData as l.
  intros l. induction l as [|[k v] l IH]; intros cs; simpl; [reflexivity|].
  now rewrite IH, set_field_frame.
Qed.

Lemma onSubmit_keeps o doc :
  controls (sub_document (onSubmit o doc)) = controls doc
  /\ warnings doc `suffix_of` warnings (sub_document (onSubmit o doc))
  /\ (loadingSpinner_display (sub_document (onSubmit o doc)) = "none"
      \/ sub_document (onSubmit o doc) = doc).
Proof.
  unfold onSubmit. destruct (_ || _); simpl; [repeat split; auto|].
  unfold handle_outcome. destruct o as [msg|r]; simpl; [repeat split; auto|].
  destruct (success r); simpl; [|repeat split; auto].
  unfold add_warning. destruct (warning r) as [w|]; [|repeat split; auto].
  destruct (String.eqb w ""); simpl; repeat split; auto.
  now apply suffix_cons_r.
Qed.

Lemma step_keeps a doc :
  map ctl_frame (controls (step a doc)) = map ctl_frame (controls doc)
  /\ warnings doc `suffix_of` warnings (step a doc)
  /\ (loadingSpinner_display doc = "none" ->
      loadingSpinner_display (step a doc) = "none").
Proof.
  destruct a as [o| | |m]; simpl.
  - destruct (onSubmit_keeps o doc) as [Hc [Hw Hs]].
    rewrite Hc. split; [reflexivity|]. split; [exact Hw|].
    intros H. destruct Hs as [S|S]; [exact S|now rewrite S].
  - repeat split; trivial. rewrite map_map. reflexivity.
  - split; [apply loadSampleData_frame|]. split; trivial.
  - repeat split; trivial.
Qed.

Lemma run_keeps actions doc :
  map ctl_frame (controls (run actions doc)) = map ctl_frame (controls doc)
  /\ warnings doc `suffix_of` warnings (run actions doc)
  /\ (loadingSpinner_display doc = "none" ->
      loadingSpinner_display (run actions doc) = "none").
Proof.
  unfold run. revert doc.
  induction actions as [|a actions IH]; intros doc; simpl; [repeat split; auto|].
  destruct (step_keeps a doc) as [H1 [H2 H3]].
  destruct (IH (step a doc)) as [I1 [I2 I3]].
  split; [congruence|]. split; [etransitivity; eauto|auto].
Qed.

(** X17.  Whatever is done on the page, in any order (submissions with any
    outcome, resets, sample loads, sorts), no control is added, removed or
    renamed and no default changes; the warnings only pile up, a warning
    once shown is never taken away; and a spinner that is hidden at the
    start is hidden at the end. *)
Theorem actions_keep (actions : list action) (doc : document) :
  map ctl_frame (controls (run actions doc)) = map ctl_frame (controls doc)
  /\ warnings doc `suffix_of` warnings (run actions doc)
  /\ (loadingSpinner_display doc = "none" ->
      loadingSpinner_display (run actions doc) = "none").
Proof.
  unfold run. revert doc.
  induction actions as [|a actions IH]; intros doc; simpl.
  - split; [reflexivity|]. split; [reflexivity|trivial].
  - destruct (step_keeps a doc) as [Hc [Hw Hs]].
    destruct (IH (step a doc)) as [Ic [Iw Is]].
    split; [now rewrite Ic|]. split; [now transitivity (warnings (step a doc))|].
    intros H. apply Is, Hs, H.
Qed.

Lemma reset_of_frame cs cs' :
  map ctl_frame cs = map ctl_frame cs' ->
  map (fun c => with_value (ctl_default c) c) cs
  = map (fun c => with_value (ctl_default c) c) cs'.
Proof.
  intros H.
  assert (forall l, map (fun c => with_value (ctl_default c) c) l
          = map (fun f : string * string * string =>
                   {| ctl_id := fst (fst f); ctl_name := snd (fst f);
                      ctl_value := snd f; ctl_default := snd f |})
                (map ctl_frame l)) as E
    by (intros l; rewrite map_map; reflexivity).
  now rewrite !E, H.
Qed.

(** X18.  The reset button undoes whatever was done to the values of the
    form: after any series of actions, [resetForm] leaves the controls it
    leaves on the document as it was at the start, each with its default
    value; it hides the results section and keeps both grids, the
    aggregate line and the warnings. *)
Theorem reset_undoes (actions : list action) (doc : document) :
  let before := run actions doc in
  controls (resetForm before) = controls (resetForm doc)
  /\ Forall (fun c => ctl_value c = ctl_default c)
            (controls (resetForm before))
  /\ resultsSection_display (doc_page (resetForm before)) = "none"
  /\ clusterGrid (doc_page (resetForm before)) = clusterGrid (doc_page before)
  /\ topClustersGrid (doc_page (resetForm before))
     = topClustersGrid (doc_page before)
  /\ aggregateDisplay (doc_page (resetForm before))
     = aggregateDisplay (doc_page before)
  /\ warnings (resetForm before) = warnings before.
Proof.
  intros before. split; [|split; [|repeat split]].
  - simpl. apply reset_of_frame. apply run_keeps.
  - simpl. apply Forall_fmap, Forall_forall. intros c _. reflexivity.
Qed.

(** ** The sample data *)

Lemma set_field_map f v cs :
  NoDup (map ctl_id cs) ->
  set_field f v cs
  = map (fun c => if String.eqb (ctl_id c) f then with_value v c else c) cs.
Proof.
  induction cs as [|c cs IH]; simpl; intros Hd; [reflexivity|].
  apply NoDup_cons in Hd as [Hc Hd].
  destruct (String.eqb (ctl_id c) f) eqn:E; [|now rewrite IH].
  f_equal. apply String.eqb_eq in E.
  rewrite <- (map_id cs) at 1. apply map_ext_in. intros x Hx.
  destruct (String.eqb (ctl_id x) f) eqn:F; [|reflexivity].
  apply String.eqb_eq in F. destruct Hc. rewrite E, <- F.
  apply list_elem_of_fmap_2. now apply list_elem_of_In.
Qed.

Lemma set_fields_map l cs :
  NoDup (map ctl_id cs) ->
  fold_left (fun cs kv => set_field (fst kv) (snd kv) cs) l cs
  = map (assign l) cs.
Proof.
  revert cs. induction l as [|[k v] l IH]; intros cs Hd; simpl.
  - now rewrite map_id.
  - rewrite IH.
    + rewrite set_field_map by trivial. rewrite map_map. reflexivity.
    + rewrite set_field_map by trivial. rewrite map_map.
      erewrite map_ext; [exact Hd|].
      intros c. simpl. now destruct (String.eqb (ctl_id c) k).
Qed.

Lemma sample_grade_in_none l k :
  k ∉ map fst l -> sample_grade_in l k = None.
Proof.
  induction l as [|[k' v] l IH]; simpl; intros H; [reflexivity|].
  apply not_elem_of_cons in H as [Hk H].
  destruct (String.eqb_spec k' k); [congruence|auto].
Qed.

Lemma assign_lookup l : forall c,
  NoDup (map fst l) ->
  assign l c
  = match sample_grade_in l (ctl_id c) with
    | Some g => with_value g c
    | None => c
    end.
Proof.
  induction l as [|[k v] l IH]; intros c Hd; [reflexivity|].
  simpl in Hd. apply NoDup_cons in Hd as [Hk Hd].
  unfold assign; cbn [fold_left fst snd sample_grade_in].
  fold (assign l (if String.eqb (ctl_id c) k then with_value v c else c)).
  rewrite (String.eqb_sym k (ctl_id c)).
  destruct (String.eqb_spec (ctl_id c) k) as [E|E].
  - rewrite IH by trivial. cbn [ctl_id with_value].
    now rewrite E, (sample_grade_in_none l k Hk).
  - now apply IH.
Qed.

Lemma sampleData_keys : NoDup (map fst sampleData).
Proof.
  apply (bool_decide_unpack (NoDup (map fst sampleData))).
  vm_compute. exact I.
Qed.

Lemma assign_sample c :
  assign sampleData c
  = match sample_grade (ctl_id c) with
    | Some g => with_value g c
    | None => c
    end.
Proof. apply assign_lookup, sampleData_keys. Qed.

(** X19.  In a document where no id is used twice, [loadSampleData] gives
    each control whose id is a field of the sample the grade of the sample
    and leaves every other control as it is; a field of the sample with no
    control is passed over, and no control is made for it. *)
Theorem loadSampleData_sets (doc : document) :
  NoDup (map ctl_id (controls doc)) ->
  controls (loadSampleData doc)
  = map (fun c => match sample_grade (ctl_id c) with
                  | Some g => with_value g c
                  | None => c
                  end) (controls doc)
  /\ doc_page (loadSampleData doc) = doc_page doc
  /\ warnings (loadSampleData doc) = warnings doc.
Proof.
  intros Hd. split; [|split; reflexivity].
  cbn [controls loadSampleData]. rewrite set_fields_map by trivial.
  apply map_ext. apply assign_sample.
Qed.

Lemma loadSampleData_sets_witness :
  controls (loadSampleData (blank_document example_controls))
  = map (fun c => match sample_grade (ctl_id c) with
                  | Some g => with_value g c
                  | None => c
                  end) (controls (blank_document example_controls))
  /\ doc_page (loadSampleData (blank_document example_controls))
     = doc_page (blank_document example_controls)
  /\ warnings (loadSampleData (blank_document example_controls))
     = warnings (blank_document example_controls).
Proof.
  apply (loadSampleData_sets (blank_document example_controls)).
  apply (bool_decide_unpack _). vm_compute. exact I.
Defined.

Lemma NoDup_map_filter {A B : Type} (f : A -> B) (P : A -> Prop)
    `{forall x, Decision (P x)} (l : list A) :
  NoDup (map f l) -> NoDup (map f (filter P l)).
Proof.
  induction l as [|x l IH]; simpl; intros Hd; [constructor|].
  apply NoDup_cons in Hd as [Hx Hd]. rewrite filter_cons.
  destruct (decide (P x)); [|auto]. simpl. apply NoDup_cons. split; [|auto].
  intros Hin. apply Hx.
  apply list_elem_of_fmap in Hin as [y [E Hy]].
  apply list_elem_of_filter in Hy as [_ Hy].
  rewrite E. now apply list_elem_of_fmap_2.
Qed.

Lemma sample_grade_in_elem l k g :
  sample_grade_in l k = Some g -> (k, g) ∈ l.
Proof.
  induction l as [|[k' v] l IH]; simpl; [discriminate|].
  destruct (String.eqb_spec k' k) as [->|_].
  - intros [= ->]. now left.
  - intros H. right. auto.
Qed.

Lemma sample_grade_entered k g :
  sample_grade k = Some g ->
  entered g = true /\ toUpperCase g = g /\ k <> "".
Proof.
  intros H. apply sample_grade_in_elem in H.
  assert (Forall (fun kv => entered (snd kv) = true
                            /\ toUpperCase (snd kv) = snd kv
                            /\ fst kv <> "") sampleData) as F.
  { unfold sampleData. repeat (constructor; [repeat split; discriminate|]).
    constructor. }
  rewrite Forall_forall in F. exact (F _ H).
Qed.

(** The grade posted under a key that occurs once in the form. *)
Lemma collect_grades_once es k v :
  NoDup (map fst es) -> (k, v) ∈ es -> entered v = true ->
  collect_grades es !! k = Some (toUpperCase v).
Proof.
  intros Hd Hin Hv. apply collect_grades_lookup.
  apply list_elem_of_split in Hin as [es1 [es2 ->]].
  exists es1, v, es2. repeat split; trivial.
  rewrite map_app in Hd. simpl in Hd.
  apply NoDup_app in Hd as [_ [_ Hd]]. apply NoDup_cons in Hd as [Hk _].
  apply Forall_forall. intros [k' v'] Hin E. simpl in *. subst k'.
  destruct Hk. now apply (list_elem_of_fmap_2 fst _ (k, v')).
Qed.

Lemma posted_both o doc :
  no_grade (collect_grades (formData (controls doc))) "mathematics" = false ->
  no_grade (collect_grades (formData (controls doc))) "english" = false ->
  sub_posted (onSubmit o doc)
  = Some (collect_grades (formData (controls doc))).
Proof.
  intros Hm He. unfold onSubmit. rewrite Hm, He. simpl.
  now destruct (handle_outcome o _).
Qed.

(** X20.  In a form where no id is used twice and every control has its id
    as its name, loading the sample and submitting posts the request as
    soon as the form has the controls [mathematics] and [english]: the
    grades posted hold, for each control whose id is a field of the
    sample, the grade of the sample. *)
Theorem sample_then_submit (o : outcome) (doc : document) :
  NoDup (map ctl_id (controls doc)) ->
  forallb (fun c => String.eqb (ctl_name c) (ctl_id c)) (controls doc) = true ->
  "mathematics" ∈ map ctl_id (controls doc) ->
  "english" ∈ map ctl_id (controls doc) ->
  exists grades,
    sub_posted (onSubmit o (loadSampleData doc)) = Some grades
    /\ forall k g, k ∈ map ctl_id (controls doc) ->
         sample_grade k = Some g -> grades !! k = Some g.
Proof.
  intros Hd Hn Hm He.
  set (es := formData (controls (loadSampleData doc))).
  assert (forall c, c ∈ controls doc -> ctl_name c = ctl_id c) as Hname.
  { intros c Hc. rewrite forallb_forall in Hn.
    apply String.eqb_eq, Hn. now apply list_elem_of_In. }
  assert (controls (loadSampleData doc) = map (assign sampleData) (controls doc))
    as Hcs by (cbn [controls loadSampleData]; now apply set_fields_map).
  assert (NoDup (map fst es)) as Hes.
  { subst es. unfold formData. rewrite map_map. cbn [fst].
    apply NoDup_map_filter. rewrite Hcs, map_map.
    rewrite (map_ext_in _ ctl_id); [exact Hd|].
    intros c Hc. rewrite assign_sample.
    destruct (sample_grade (ctl_id c)); simpl; apply Hname;
      now apply list_elem_of_In. }
  assert (forall k g, k ∈ map ctl_id (controls doc) ->
            sample_grade k = Some g -> (k, g) ∈ es) as Hin.
  { intros k g Hk Hg. apply list_elem_of_fmap in Hk as [c [-> Hc]].
    subst es. unfold formData.
    apply (list_elem_of_fmap_2' _ _ (with_value g c)).
    - apply list_elem_of_filter. split.
      + simpl. rewrite (Hname c Hc).
        destruct (sample_grade_entered _ _ Hg) as [_ [_ Hk]].
        apply String.eqb_neq in Hk. rewrite Hk. exact I.
      + rewrite Hcs. apply list_elem_of_fmap. exists c. split; [|trivial].
        now rewrite assign_sample, Hg.
    - simpl. now rewrite (Hname c Hc). }
  assert (forall k g, k ∈ map ctl_id (controls doc) ->
            sample_grade k = Some g -> collect_grades es !! k = Some g) as Hg.
  { intros k g Hk Hs.
    destruct (sample_grade_entered _ _ Hs) as [Hv [Hu _]].
    rewrite <- Hu. apply collect_grades_once; auto. }
  exists (collect_grades es). split; [|exact Hg].
  apply (posted_both o (loadSampleData doc)); apply no_grade_false.
  - exists "A". split; [now apply Hin|reflexivity].
  - exists "B+". split; [now apply Hin|reflexivity].
Qed.

Lemma sample_then_submit_witness :
  exists grades,
    sub_posted (onSubmit (Replied example_reply)
                  (loadSampleData (blank_document example_controls)))
    = Some grades
    /\ forall k g,
         k ∈ map ctl_id (controls (blank_document example_controls)) ->
         sample_grade k = Some g -> grades !! k = Some g.
Proof.
  apply (sample_then_submit (Replied example_reply)
           (blank_document example_controls)).
  - apply (bool_decide_unpack _). vm_compute. exact I.
  - vm_compute. reflexivity.
  - apply (bool_decide_unpack _). vm_compute. exact I.
  - apply (bool_decide_unpack _). vm_compute. exact I.
Defined.

Lemma formData_value cs k v :
  (k, v) ∈ formData cs -> exists c, c ∈ cs /\ ctl_value c = v.
Proof.
  unfold formData. intros H.
  apply list_elem_of_fmap in H as [c [[= -> ->] Hc]].
  apply list_elem_of_filter in Hc as [_ Hc]. eauto.
Qed.

(** X21.  In a form whose defaults are all empty or the placeholder
    [Select Grade], nothing can be posted right after a reset: whatever
    was done before, a submission that follows [resetForm] posts nothing,
    raises the alert that asks for the two grades and leaves the document
    as the reset left it. *)
Theorem reset_then_submit (o : outcome) (actions : list action)
    (doc : document) :
  forallb (fun c => negb (entered (ctl_default c))) (controls doc) = true ->
  let cleared := resetForm (run actions doc) in
  sub_posted (onSubmit o cleared) = None
  /\ sub_alert (onSubmit o cleared)
     = Some "Please enter grades for at least Mathematics and English."
  /\ sub_document (onSubmit o cleared) = cleared.
Proof.
  intros Hdef cleared.
  assert (forall k, no_grade (collect_grades (formData (controls cleared))) k
                    = true) as Hno.
  { intros k. destruct (no_grade _ k) eqn:E; [reflexivity|].
    apply no_grade_false in E as [v [Hin Hv]].
    apply formData_value in Hin as [c [Hc <-]].
    subst cleared. cbn [controls resetForm] in Hc.
    rewrite (reset_of_frame _ (controls doc)) in Hc by apply run_keeps.
    apply list_elem_of_fmap in Hc as [c0 [-> Hc0]]. simpl in Hv.
    rewrite forallb_forall in Hdef.
    apply list_elem_of_In, Hdef in Hc0. rewrite Hv in Hc0. discriminate. }
  unfold onSubmit. rewrite !Hno. repeat split.
Qed.

Lemma reset_then_submit_witness :
  let cleared :=
    resetForm (run [LoadSample; Submit (Replied example_reply); Sort "number"]
                 (blank_document example_controls)) in
  sub_posted (onSubmit (Failed "offline") cleared) = None
  /\ sub_alert (onSubmit (Failed "offline") cleared)
     = Some "Please enter grades for at least Mathematics and English."
  /\ sub_document (onSubmit (Failed "offline") cleared) = cleared.
Proof.
  apply (reset_then_submit (Failed "offline")
           [LoadSample; Submit (Replied example_reply); Sort "number"]
           (blank_document example_controls)).
  vm_compute. reflexivity.
Defined.
